(** * GPShandler: the GPS sentence cache of dragino/GPShandler.py

    A shallow embedding of class [GPS]: the object's attributes are a
    record, every method is a function in a small state-and-exception
    monad, and the two sources of input of [update_gps] (the gpsd socket
    and the system clock) are explicit arguments.  The updater thread
    is followed from one test of [self.running] to the next, against a
    list of the polls it makes and of what the other thread does in
    between ([stop()], and the assignment of [gps_cache] that
    [__init__] makes after it has started the thread).

    Conventions.
    - Values produced by [json.loads] and by [time.time] are values of
      [pyval].  A Python [float] is represented by the rational it denotes
      and float arithmetic is taken exact; NaN and the infinities are not
      represented.
    - A [dict] is an association list in insertion order, looked up by
      first match.  The keys of the cache are compared with Python's
      [==], under which [1], [1.0] and [True] are one key, and the key
      object stored first is the one that stays.
    - Instants ([datetime]) and durations ([timedelta]) are counted in
      seconds and hold a whole number of microseconds.  The local time
      zone is taken to be UTC, and the ranges are those of CPython 3.11
      on 64-bit Linux.
    - [self.logger] is represented by the list of records it has emitted,
      newest first; [print] writes to the same list. *)

From Stdlib Require Import ZArith QArith Qround String List Bool Lia Lqa.
Import ListNotations.

Open Scope string_scope.
Open Scope Z_scope.

(* ================================================================= *)
(** ** Python values *)

#[warnings="-register-all"]
Inductive pyval : Type :=
| PNone
| PBool (b : bool)
| PInt (z : Z)
| PFloat (q : Q)
| PStr (s : string)
| PList (l : list pyval)
| PDict (items : list (string * pyval)).

(** Python exception classes met in this module.  [Exception] is the
    base class of all the others; [UserError] stands for a class a
    program defines itself. *)
Inductive exn : Type :=
| Exception
| AttributeError
| KeyError
| TypeError
| ValueError
| OSError
| OverflowError
| UserError (name : string).

(** [isinstance e cls], as used by an [except cls] clause. *)
Definition isinstance (e cls : exn) : bool :=
  match cls, e with
  | Exception, _ => true
  | AttributeError, AttributeError => true
  | KeyError, KeyError => true
  | TypeError, TypeError => true
  | ValueError, ValueError => true
  | OSError, OSError => true
  | OverflowError, OverflowError => true
  | UserError n, UserError m => String.eqb n m
  | _, _ => false
  end.

(** The number a value stands for in a comparison: [bool] is a
    subclass of [int] ([True == 1], [False == 0]). *)
Definition as_number (v : pyval) : option Q :=
  match v with
  | PBool b => Some (if b then 1%Q else 0%Q)
  | PInt z => Some (inject_Z z)
  | PFloat q => Some q
  | _ => None
  end.

(** Python's [==] when at least one operand is [None], a number or a
    string (a list or a dict is equal to none of these). *)
Definition py_eq (a b : pyval) : bool :=
  match as_number a, as_number b with
  | Some x, Some y => Qeq_bool x y
  | None, None =>
      match a, b with
      | PNone, PNone => true
      | PStr s, PStr t => String.eqb s t
      | _, _ => false
      end
  | _, _ => false
  end.

(** [hash(v)] raises [TypeError] on a list or a dict. *)
Definition hashable (v : pyval) : bool :=
  match v with
  | PList _ | PDict _ => false
  | _ => true
  end.

(* ================================================================= *)
(** ** Dictionaries *)

Section Dict.
Context {K V : Type} (eqk : K -> K -> bool).

Fixpoint dict_get (k : K) (d : list (K * V)) : option V :=
  match d with
  | [] => None
  | (k', v) :: d' => if eqk k k' then Some v else dict_get k d'
  end.

(** [d[k] = v]: the value of an existing key is replaced in place (the
    key object stored first is kept), a new key is appended. *)
Fixpoint dict_set (k : K) (v : V) (d : list (K * V)) : list (K * V) :=
  match d with
  | [] => [(k, v)]
  | (k', v') :: d' =>
      if eqk k k' then (k', v) :: d' else (k', v') :: dict_set k v d'
  end.

Definition dict_keys (d : list (K * V)) : list K := map fst d.

Definition dict_contains (k : K) (d : list (K * V)) : bool :=
  match dict_get k d with Some _ => true | None => false end.
End Dict.

(* ================================================================= *)
(** ** The GPS object *)

(** One record written by [self.logger] or [print]. *)
Inductive emitted : Type :=
| Info_no_fix                 (* logger.info("No GPS fix (yet)") *)
| Exception_missing_key       (* logger.exception("unable to extract TPV data ...") *)
| Print_got                   (* print(f"Got lat ... hdop ... at ...") *)
| Warning_ignoring (e : exn)  (* logger.warning(f"ignoring exception {e}") *)
| Warn_stopped.               (* logger.warn("GPS handler stopped") *)

(** The attributes of a [GPS] instance that the methods read or write. *)
Record GPS : Type := mkGPS {
  lat : pyval;
  lon : pyval;
  alt : pyval;
  hdop : pyval;
  timestamp : pyval;
  lastGpsReading : pyval;
  gps_cache : list (pyval * pyval);
  running : bool;
  stopped : bool;
  logger : list emitted
}.

Definition set_lat (v : pyval) (g : GPS) : GPS :=
  mkGPS v (lon g) (alt g) (hdop g) (timestamp g) (lastGpsReading g)
        (gps_cache g) (running g) (stopped g) (logger g).
Definition set_lon (v : pyval) (g : GPS) : GPS :=
  mkGPS (lat g) v (alt g) (hdop g) (timestamp g) (lastGpsReading g)
        (gps_cache g) (running g) (stopped g) (logger g).
Definition set_alt (v : pyval) (g : GPS) : GPS :=
  mkGPS (lat g) (lon g) v (hdop g) (timestamp g) (lastGpsReading g)
        (gps_cache g) (running g) (stopped g) (logger g).
Definition set_hdop (v : pyval) (g : GPS) : GPS :=
  mkGPS (lat g) (lon g) (alt g) v (timestamp g) (lastGpsReading g)
        (gps_cache g) (running g) (stopped g) (logger g).
Definition set_timestamp (v : pyval) (g : GPS) : GPS :=
  mkGPS (lat g) (lon g) (alt g) (hdop g) v (lastGpsReading g)
        (gps_cache g) (running g) (stopped g) (logger g).
Definition set_lastGpsReading (v : pyval) (g : GPS) : GPS :=
  mkGPS (lat g) (lon g) (alt g) (hdop g) (timestamp g) v
        (gps_cache g) (running g) (stopped g) (logger g).
Definition set_gps_cache (c : list (pyval * pyval)) (g : GPS) : GPS :=
  mkGPS (lat g) (lon g) (alt g) (hdop g) (timestamp g) (lastGpsReading g)
        c (running g) (stopped g) (logger g).
Definition set_running (b : bool) (g : GPS) : GPS :=
  mkGPS (lat g) (lon g) (alt g) (hdop g) (timestamp g) (lastGpsReading g)
        (gps_cache g) b (stopped g) (logger g).
Definition set_stopped (b : bool) (g : GPS) : GPS :=
  mkGPS (lat g) (lon g) (alt g) (hdop g) (timestamp g) (lastGpsReading g)
        (gps_cache g) (running g) b (logger g).
Definition emit (r : emitted) (g : GPS) : GPS :=
  mkGPS (lat g) (lon g) (alt g) (hdop g) (timestamp g) (lastGpsReading g)
        (gps_cache g) (running g) (stopped g) (r :: logger g).

(** [GPS.__init__], once it has run to its last line: every cached value
    is [None], the cache is the empty dict, and the updater thread has
    not entered its loop yet. *)
Definition init : GPS :=
  mkGPS PNone PNone PNone PNone PNone PNone [] false true [].

(* ================================================================= *)
(** ** Statements: state, exceptions and [return] *)

(** How a statement completes: normally with a value, by raising, or
    by executing [return]. *)
Inductive completion (A : Type) : Type :=
| Normal (a : A)
| Raise (e : exn)
| Return_.
Arguments Normal {A} a.
Arguments Raise {A} e.
Arguments Return_ {A}.

Definition M (A : Type) : Type := GPS -> completion A * GPS.

Definition ret {A} (a : A) : M A := fun g => (Normal a, g).
Definition raise {A} (e : exn) : M A := fun g => (Raise e, g).
Definition return_ {A} : M A := fun g => (Return_, g).

(** Sequencing: what the first statement did to the object stays done
    when it raises or returns. *)
Definition bind {A B} (m : M A) (f : A -> M B) : M B :=
  fun g =>
    match m g with
    | (Normal a, g') => f a g'
    | (Raise e, g') => (Raise e, g')
    | (Return_, g') => (Return_, g')
    end.

Declare Scope py_scope.
Delimit Scope py_scope with py.
Notation "x <- m ;; k" := (bind m (fun x => k))
  (at level 100, m at next level, right associativity) : py_scope.
Notation "m ;; k" := (bind m (fun _ => k))
  (at level 100, right associativity) : py_scope.
Open Scope py_scope.

Definition get {A} (f : GPS -> A) : M A := fun g => (Normal (f g), g).
Definition modify (f : GPS -> GPS) : M unit := fun g => (Normal tt, f g).

(** [try: body except cls as e: handler e]. *)
Definition try_except {A} (body : M A) (cls : exn) (handler : exn -> M A) : M A :=
  fun g =>
    match body g with
    | (Raise e, g') => if isinstance e cls then handler e g' else (Raise e, g')
    | r => r
    end.

(** The boundary of a function without a result: [return] and falling
    off the end both complete the call normally. *)
Definition def (body : M unit) : M unit :=
  fun g =>
    match body g with
    | (Return_, g') => (Normal tt, g')
    | r => r
    end.

(** [v[k]] for a string subscript [k]. *)
Definition getitem (v : pyval) (k : string) : M pyval :=
  match v with
  | PDict items =>
      match dict_get String.eqb k items with
      | Some x => ret x
      | None => raise KeyError
      end
  | _ => raise TypeError
  end.

(** [v[k] = x] for a string subscript [k]; the result is the dict after
    the assignment. *)
Definition setitem (v : pyval) (k : string) (x : pyval) : M pyval :=
  match v with
  | PDict items => ret (PDict (dict_set String.eqb k x items))
  | _ => raise TypeError
  end.

(** [self.gps_cache[k] = x]. *)
Definition cache_setitem (k x : pyval) : M unit :=
  if hashable k
  then modify (fun g => set_gps_cache (dict_set py_eq k x (gps_cache g)) g)
  else raise TypeError.

(* ================================================================= *)
(** ** The inputs of one poll *)

(** What [self.gpsd_socket.next()] and [json.loads] make of one poll. *)
Inductive reading : Type :=
| NextRaises (e : exn)          (* next() raises, or there is no socket *)
| NextNone                      (* nothing pending *)
| NextLine (decoded : option pyval).
                                (* a line; [None] when json.loads rejects it *)

(** One poll: the line read and the two values [time()] returns, at the
    lines that set [lastReadingTime] and [lastGpsReading]. *)
Record tick : Type := mkTick {
  received : reading;
  t_read : Q;
  t_fix : Q
}.

Definition gpsd_socket_next (r : reading) : M (option (option pyval)) :=
  match r with
  | NextRaises e => raise e
  | NextNone => ret None
  | NextLine d => ret (Some d)
  end.

Definition json_loads (new_data : option pyval) : M pyval :=
  match new_data with
  | Some v => ret v
  | None => raise ValueError
  end.

(* ================================================================= *)
(** ** Methods *)

Definition VERBOSE : bool := false.

(** [GPS.get_gps]; its debug record changes no attribute and is left
    out. *)
Definition get_gps (g : GPS) : pyval * pyval * pyval * pyval :=
  (lat g, lon g, alt g, hdop g).

(** The body of the outer [try] of [GPS.update_gps]. *)
Definition update_gps_body (tk : tick) : M unit :=
  (* new_data = self.gpsd_socket.next() *)
  new_data <- gpsd_socket_next (received tk) ;;
  match new_data with
  | Some line =>
      (* data = json.loads(new_data) *)
      data <- json_loads line ;;
      (if VERBOSE then _ <- getitem data "class" ;; ret tt else ret tt) ;;
      (* data["lastReadingTime"]=time() *)
      data <- setitem data "lastReadingTime" (PFloat (t_read tk)) ;;
      (* self.gps_cache[data["class"]]=data *)
      cls <- getitem data "class" ;;
      cache_setitem cls data ;;
      (* if data["class"] == "TPV": *)
      cls <- getitem data "class" ;;
      (if py_eq cls (PStr "TPV") then
         (* if data["mode"]==0 or data["mode"]==1: ... return *)
         no_fix <- (mode <- getitem data "mode" ;;
                    if py_eq mode (PInt 0) then ret true
                    else mode <- getitem data "mode" ;;
                         ret (py_eq mode (PInt 1))) ;;
         (if no_fix : bool
          then modify (emit Info_no_fix) ;; return_
          else ret tt) ;;
         (* try: self.lat = data["lat"] ... except KeyError as e: ... *)
         try_except
           (v <- getitem data "lat" ;; modify (set_lat v) ;;
            v <- getitem data "lon" ;; modify (set_lon v) ;;
            v <- getitem data "alt" ;; modify (set_alt v) ;;
            v <- getitem data "time" ;; modify (set_timestamp v) ;;
            modify (set_lastGpsReading (PFloat (t_fix tk))))
           KeyError
           (fun _ => modify (emit Exception_missing_key))
       else ret tt) ;;
      (* if data["class"] == "SKY": self.hdop = data["hdop"]; print(...) *)
      cls <- getitem data "class" ;;
      (if py_eq cls (PStr "SKY") then
         v <- getitem data "hdop" ;; modify (set_hdop v) ;;
         modify (emit Print_got)
       else ret tt)
  | None => ret tt
  end.

(** [GPS.update_gps]: one poll of the daemon.  [except Exception]
    around the whole body logs a warning. *)
Definition update_gps (tk : tick) : M unit :=
  def (try_except (update_gps_body tk) Exception
         (fun e => modify (emit (Warning_ignoring e)))).

(** The object after a sequence of polls. *)
Definition feed (tks : list tick) (g : GPS) : GPS :=
  fold_left (fun g tk => snd (update_gps tk g)) tks g.

(** Rounding to the nearest integer, a tie going to the even one. *)
Definition round_half_even (q : Q) : Z :=
  let f := Qfloor q in
  match (q - inject_Z f ?= 1 # 2)%Q with
  | Lt => f
  | Gt => f + 1
  | Eq => if Z.even f then f else f + 1
  end.

(** Instants and durations, in seconds. *)
Record datetime : Type := mkDatetime { epoch_seconds : Q }.
Record duration : Type := mkDuration { total_seconds : Q }.

(** A whole number of microseconds, as seconds in lowest terms. *)
Definition of_microseconds (us : Z) : Q := Qred (us # 1000000).

(** The seconds a C [time_t] holds, the seconds [localtime] converts,
    the first second [datetime.fromtimestamp] accepts (0001-01-02: it
    also looks one day back, for a repeated hour), the first second of
    [datetime.min] (0001-01-01), the second after [datetime.max]
    (10000-01-01), and the most days a [timedelta] holds. *)
Definition TIME_T_MIN : Z := - 2 ^ 63.
Definition TIME_T_MAX : Z := 2 ^ 63 - 1.
Definition LOCALTIME_MIN : Z := -67768040609740800.
Definition LOCALTIME_MAX : Z := 67768036191676799.
Definition FROMTIMESTAMP_MIN : Z := -62135510400.
Definition DATETIME_MIN : Z := -62135596800.
Definition DATETIME_END : Z := 253402300800.
Definition MAX_DELTA_DAYS : Z := 999999999.

(** [datetime.timedelta(days, seconds)]: the first positional argument
    counts days.  The sum is rounded to microseconds; more than
    999999999 days either way raise [OverflowError]. *)
Definition timedelta (days seconds : Q) : M duration :=
  let us := round_half_even ((days * 86400 + seconds) * 1000000) in
  let d := us / 86400000000 in
  if (d <? - MAX_DELTA_DAYS) || (MAX_DELTA_DAYS <? d)
  then raise OverflowError
  else ret (mkDuration (of_microseconds us)).

(** [datetime.fromtimestamp(v)]: the number is rounded to microseconds
    and split into whole seconds and microseconds.  Seconds that do not
    fit [time_t] raise [OverflowError] (a float is compared as a double,
    which lets 2^63 itself through), seconds [localtime] cannot convert
    raise [OSError], and a year outside 1..9999 raises [ValueError]. *)
Definition fromtimestamp (v : pyval) : M datetime :=
  match as_number v with
  | Some q =>
      let us := round_half_even (q * 1000000) in
      let timet := us / 1000000 in
      let time_t_max :=
        match v with PFloat _ => TIME_T_MAX + 1 | _ => TIME_T_MAX end in
      if (timet <? TIME_T_MIN) || (time_t_max <? timet)
      then raise OverflowError
      else if (timet <? LOCALTIME_MIN) || (LOCALTIME_MAX <? timet)
      then raise OSError
      else if (timet <? FROMTIMESTAMP_MIN) || (DATETIME_END <=? timet)
      then raise ValueError
      else ret (mkDatetime (of_microseconds us))
  | None => raise TypeError
  end.

(** [x - v] for a float [x]. *)
Definition float_sub (x : Q) (v : pyval) : M Q :=
  match as_number v with
  | Some q => ret (x - q)%Q
  | None => raise TypeError
  end.

(** [d + t]: a result outside [datetime.min .. datetime.max] raises
    [OverflowError]. *)
Definition datetime_add (d : datetime) (t : duration) : M datetime :=
  let s := Qred (epoch_seconds d + total_seconds t) in
  if Qle_bool (inject_Z DATETIME_MIN) s
     && negb (Qle_bool (inject_Z DATETIME_END) s)
  then ret (mkDatetime s)
  else raise OverflowError.

(** [GPS.get_corrected_timestamp]; [now] is what [time()] returns:
    [datetime.fromtimestamp(self.timestamp)
     + timedelta(time() - self.lastGpsReading)]. *)
Definition get_corrected_timestamp (now : Q) : M datetime :=
  ts <- get timestamp ;;
  d <- fromtimestamp ts ;;
  last <- get lastGpsReading ;;
  elapsed <- float_sub now last ;;
  t <- timedelta elapsed 0%Q ;;
  datetime_add d t.

(** What an attribute of the instance holds. *)
Inductive attribute : Type :=
| AValue (v : pyval)
| ACache (c : list (pyval * pyval))
| AFlag (b : bool)
| AObject.   (* logger, socket, thread, configuration and bound methods *)

Definition instance_objects : list string :=
  ["logger"; "isThreaded"; "threadLoopDelay"; "gpsd_socket"; "data_stream";
   "gpsThread"; "stop"; "get_gps"; "get_corrected_timestamp"; "delay";
   "getSentences"; "getSentence"; "_updater"; "update_gps"].

(** [self.name] for the names [__init__] assigns and the methods the
    class defines; any other name raises [AttributeError] (the special
    names every object has are not represented). *)
Definition getattr (name : string) : M attribute :=
  if String.eqb name "lat" then g <- get lat ;; ret (AValue g)
  else if String.eqb name "lon" then g <- get lon ;; ret (AValue g)
  else if String.eqb name "alt" then g <- get alt ;; ret (AValue g)
  else if String.eqb name "hdop" then g <- get hdop ;; ret (AValue g)
  else if String.eqb name "timestamp" then g <- get timestamp ;; ret (AValue g)
  else if String.eqb name "lastGpsReading" then g <- get lastGpsReading ;; ret (AValue g)
  else if String.eqb name "gps_cache" then c <- get gps_cache ;; ret (ACache c)
  else if String.eqb name "running" then b <- get running ;; ret (AFlag b)
  else if String.eqb name "stopped" then b <- get stopped ;; ret (AFlag b)
  else if existsb (String.eqb name) instance_objects then ret AObject
  else raise AttributeError.

(** [a.keys()]: only a dict has this method. *)
Definition keys (a : attribute) : M (list pyval) :=
  match a with
  | ACache c => ret (dict_keys c)
  | AValue (PDict items) => ret (map PStr (dict_keys items))
  | _ => raise AttributeError
  end.

(** [GPS.getSentences]. *)
Definition getSentences : M (list pyval) :=
  c <- getattr "gpc_cache" ;;
  keys c.

Definition upper_ascii (c : Ascii.ascii) : Ascii.ascii :=
  let n := Ascii.nat_of_ascii c in
  if ((97 <=? n) && (n <=? 122))%nat then Ascii.ascii_of_nat (n - 32) else c.

Fixpoint upper (s : string) : string :=
  match s with
  | EmptyString => EmptyString
  | String c s' => String (upper_ascii c) (upper s')
  end.

Definition lower_ascii (c : Ascii.ascii) : Ascii.ascii :=
  let n := Ascii.nat_of_ascii c in
  if ((65 <=? n) && (n <=? 90))%nat then Ascii.ascii_of_nat (n + 32) else c.

Fixpoint lower (s : string) : string :=
  match s with
  | EmptyString => EmptyString
  | String c s' => String (lower_ascii c) (lower s')
  end.

(** [s.name] for the two methods of [str] that fold case; [str] has
    no attribute called [toupper] (its other methods are not
    represented). *)
Definition str_method (name : string) : M (string -> string) :=
  if String.eqb name "upper" then ret upper
  else if String.eqb name "lower" then ret lower
  else raise AttributeError.

(** [GPS.getSentence]. *)
Definition getSentence (which : string) : M pyval :=
  toupper <- str_method "toupper" ;;
  let which := toupper which in
  c <- get gps_cache ;;
  if dict_contains py_eq (PStr which) c
  then match dict_get py_eq (PStr which) c with
       | Some v => ret v
       | None => raise KeyError
       end
  else ret PNone.

(** What [threadDelay] can be: a finite number (an int, a bool or a
    float), an infinite float, a NaN, or a value that [>=] cannot
    compare with a float (None, a string, a list, ...). *)
Inductive delay_value : Type :=
| Seconds (q : Q)
| Infinity (negative : bool)
| NaN
| NotANumber.


(** [elapsed >= Delay] for a float [elapsed]. *)
Definition elapsed_ge (elapsed : Q) (Delay : delay_value) : exn + bool :=
  match Delay with
  | Seconds q => inr (Qle_bool q elapsed)
  | Infinity negative => inr negative
  | NaN => inr false
  | NotANumber => inl TypeError
  end.

(** How a call of [GPS.delay] is seen to end: it returns after some
    [sleep(0.1)] calls, it is still in its loop when the readings of
    the clock run out, or it raises. *)
Inductive waited : Type :=
| Returned (sleeps : nat) (rest : list Q)
| StillWaiting
| Raised (e : exn).

(** The loop of [GPS.delay]: one reading of [time()] per turn. *)
Fixpoint delay_loop (start : Q) (Delay : delay_value) (clock : list Q)
    : waited :=
  match clock with
  | [] => StillWaiting
  | t :: clock' =>
      match elapsed_ge (t - start) Delay with
      | inl e => Raised e
      | inr true => Returned O clock'
      | inr false =>
          match delay_loop start Delay clock' with
          | Returned n rest => Returned (S n) rest
          | w => w
          end
      end
  end.

(** [GPS.delay]: [start=time()], then the loop.  [clock] lists what the
    successive calls of [time()] return. *)
Definition delay (Delay : delay_value) (clock : list Q) : waited :=
  match clock with
  | [] => StillWaiting
  | start :: clock' => delay_loop start Delay clock'
  end.

(** [GPS.update_gps] on an object that has no [gps_cache] yet:
    [__init__] starts the updater thread before it assigns the
    attribute.  [self.gps_cache[data["class"]]=data] then raises
    [AttributeError] when it reads [self.gps_cache], which comes before
    [data["class"]]. *)
Definition update_gps_body_before_cache (tk : tick) : M unit :=
  new_data <- gpsd_socket_next (received tk) ;;
  match new_data with
  | Some line =>
      data <- json_loads line ;;
      (if VERBOSE then _ <- getitem data "class" ;; ret tt else ret tt) ;;
      data <- setitem data "lastReadingTime" (PFloat (t_read tk)) ;;
      raise AttributeError
  | None => ret tt
  end.

Definition update_gps_before_cache (tk : tick) : M unit :=
  def (try_except (update_gps_body_before_cache tk) Exception
         (fun e => modify (emit (Warning_ignoring e)))).

(** What the updater thread meets from one test of [self.running] to
    the next: a poll, followed by a delay that reads [clock]; another
    thread having run [stop()], which clears [self.running]; or
    [__init__] having reached [self.gps_cache={}]. *)
Inductive event : Type :=
| Poll (tk : tick) (clock : list Q)
| Stop
| CacheAssigned.


(** Where the updater thread is when the events run out. *)
Inductive thread_state : Type :=
| Looping            (* at the test of [while self.running] *)
| Delaying           (* inside a [delay] that has not returned *)
| Finished           (* left the loop and set [self.stopped] *)
| Died (e : exn).    (* an exception escaped the thread function *)

(** [while self.running: self.update_gps(); self.delay(self.threadLoopDelay)]
    followed by the two statements after the loop.  [Delay] is
    [self.threadLoopDelay]; [has_cache] tells whether [gps_cache] has
    been assigned. *)
Fixpoint while_running (Delay : delay_value) (has_cache : bool)
    (evs : list event) (g : GPS) : thread_state * GPS :=
  if running g then
    match evs with
    | [] => (Looping, g)
    | Stop :: evs' => while_running Delay has_cache evs' (set_running false g)
    | CacheAssigned :: evs' => while_running Delay true evs' (set_gps_cache [] g)
    | Poll tk clock :: evs' =>
        match (if has_cache then update_gps tk
               else update_gps_before_cache tk) g with
        | (Raise e, g') => (Died e, g')
        | (_, g') =>
            match delay Delay clock with
            | Returned _ _ => while_running Delay has_cache evs' g'
            | StillWaiting => (Delaying, g')
            | Raised e => (Died e, g')
            end
        end
    end
  else (Finished, set_stopped true (emit Warn_stopped g)).

(** [GPS._updater], the thread function; its one caller is [__init__],
    before [gps_cache] is assigned. *)
Definition _updater (Delay : delay_value) (evs : list event) (g : GPS)
    : thread_state * GPS :=
  while_running Delay false evs (set_stopped false (set_running true g)).

(* ================================================================= *)
(** ** Vocabulary of the properties *)

(** The sentence a poll delivers, when it delivers a JSON object. *)
Definition sentence (tk : tick) : list (string * pyval) :=
  match received tk with
  | NextLine (Some (PDict items)) => items
  | _ => []
  end.

Definition has (k : string) (items : list (string * pyval)) : bool :=
  dict_contains String.eqb k items.

Definition field (k : string) (tk : tick) : pyval :=
  match dict_get String.eqb k (sentence tk) with
  | Some v => v
  | None => PNone
  end.

Definition class_is (c : string) (tk : tick) : bool :=
  match dict_get String.eqb "class" (sentence tk) with
  | Some (PStr s) => String.eqb s c
  | _ => false
  end.

Definition mode_in (modes : list Z) (tk : tick) : bool :=
  match dict_get String.eqb "mode" (sentence tk) with
  | Some m => existsb (fun z => py_eq m (PInt z)) modes
  | None => false
  end.

Definition all_fix_fields (tk : tick) : bool :=
  has "lat" (sentence tk) && has "lon" (sentence tk)
  && has "alt" (sentence tk) && has "time" (sentence tk).

(** A TPV sentence with a 2D or 3D fix and the four fields of a fix. *)
Definition is_fix (tk : tick) : bool :=
  class_is "TPV" tk && mode_in [2; 3] tk && all_fix_fields tk.

(** A TPV sentence with fix mode 2 or 3 that lacks a field of a fix. *)
Definition is_incomplete_fix (tk : tick) : bool :=
  class_is "TPV" tk && mode_in [2; 3] tk && negb (all_fix_fields tk).

(** A TPV sentence that reports no data or no fix. *)
Definition is_no_fix (tk : tick) : bool :=
  class_is "TPV" tk && mode_in [0; 1] tk.

(** A SKY sentence with an hdop field. *)
Definition is_sky (tk : tick) : bool :=
  class_is "SKY" tk && has "hdop" (sentence tk).

(** A poll after which [update_gps] has stored a GPS time: a TPV
    sentence whose mode equals neither 0 nor 1 and that has the four
    fields. *)
Definition caches_fix (tk : tick) : bool :=
  class_is "TPV" tk
  && match dict_get String.eqb "mode" (sentence tk) with
     | Some m => negb (py_eq m (PInt 0) || py_eq m (PInt 1))
     | None => false
     end
  && all_fix_fields tk.

(** The hdop of the last sentence of a run of SKY sentences, [dflt]
    when the run is empty. *)
Definition latest_hdop (dflt : pyval) (tks : list tick) : pyval :=
  fold_left (fun h tk => if is_sky tk then field "hdop" tk else h) tks dflt.

(** A line that decodes to a JSON object with a "class" member. *)
Definition has_class (v : pyval) : bool :=
  match v with
  | PDict items => has "class" items
  | _ => false
  end.

(** The condition a caller of [get_corrected_timestamp] is told about
    when there is no fix yet, according to the specification: a
    dedicated exception, or some value returned as a sentinel. *)
Definition signals_uninitialized (r : completion datetime) : Prop :=
  r = Raise (UserError "UninitializedState") \/ exists d, r = Normal d.

(** The five snapshot attributes a fix sets. *)
Definition fix_fields_kept (g g' : GPS) : Prop :=
  lat g' = lat g /\ lon g' = lon g /\ alt g' = alt g /\
  timestamp g' = timestamp g /\ lastGpsReading g' = lastGpsReading g.

(** The sentence as [update_gps] caches it, with its reading time, and
    the object once the sentence is in the cache under class [c]. *)
Definition stamped (tk : tick) (items : list (string * pyval)) : pyval :=
  PDict (dict_set String.eqb "lastReadingTime" (PFloat (t_read tk)) items).
Definition cached (c : string) (tk : tick) (items : list (string * pyval))
    (g : GPS) : GPS :=
  set_gps_cache (dict_set py_eq (PStr c) (stamped tk items) (gps_cache g)) g.

(** Sample sentences. *)
Definition tpv_fix : pyval :=
  PDict [("class", PStr "TPV"); ("mode", PInt 3); ("lat", PFloat (515 # 10));
         ("lon", PFloat (-1 # 10)); ("alt", PFloat 10);
         ("time", PInt 1700000000)].
Definition tpv_fix2 : pyval :=
  PDict [("class", PStr "TPV"); ("mode", PInt 2); ("lat", PFloat (404 # 10));
         ("lon", PFloat (-74 # 1)); ("alt", PFloat 3);
         ("time", PInt 1700000060)].
Definition tpv_no_time : pyval :=
  PDict [("class", PStr "TPV"); ("mode", PInt 3); ("lat", PFloat (515 # 10));
         ("lon", PFloat (-1 # 10)); ("alt", PFloat 10)].
Definition tpv_no_fix : pyval :=
  PDict [("class", PStr "TPV"); ("mode", PInt 1)].
Definition sky_hdop : pyval :=
  PDict [("class", PStr "SKY"); ("hdop", PFloat (12 # 10))].

Definition poll (v : pyval) (t : Q) : tick := mkTick (NextLine (Some v)) t t.

(** A fix whose time is the ISO 8601 string gpsd reports. *)
Definition tpv_iso_time : pyval :=
  PDict [("class", PStr "TPV"); ("mode", PInt 3); ("lat", PFloat (515 # 10));
         ("lon", PFloat (-1 # 10)); ("alt", PFloat 10);
         ("time", PStr "2023-11-14T22:13:20.000Z")].

(* ================================================================= *)
(** ** The cache, poll by poll *)

(** The key under which [update_gps] caches what a poll delivers: the
    value of "class" when the line decodes to an object and that value
    can be hashed. *)
Definition cache_key (tk : tick) : option pyval :=
  match received tk with
  | NextLine (Some (PDict items)) =>
      match dict_get String.eqb "class" items with
      | Some c => if hashable c then Some c else None
      | None => None
      end
  | _ => None
  end.

(** The most recent sentence of a sequence of polls that was cached
    under a key equal to [k], as it was cached; [dflt] when there is
    none. *)
Definition latest_of (k : pyval) (tks : list tick) (dflt : option pyval)
    : option pyval :=
  fold_left
    (fun acc tk =>
       match cache_key tk with
       | Some c => if py_eq k c then Some (stamped tk (sentence tk)) else acc
       | None => acc
       end)
    tks dflt.

(** No two keys of a cache are equal, and every key can be hashed. *)
Fixpoint distinct_keys (d : list (pyval * pyval)) : bool :=
  match d with
  | [] => true
  | (k, _) :: d' =>
      hashable k && negb (dict_contains py_eq k d') && distinct_keys d'
  end.

(** A sentence that lacks the member its class is read for: a TPV
    sentence without "mode", or a SKY sentence without "hdop". *)
Definition lacks_class_member (tk : tick) : bool :=
  (class_is "TPV" tk && negb (has "mode" (sentence tk)))
  || (class_is "SKY" tk && negb (has "hdop" (sentence tk))).

(** The GPS time and the arrival time of the most recent poll of a
    sequence that cached a fix; [dflt] when no poll did. *)
Definition latest_time (dflt : pyval) (tks : list tick) : pyval :=
  fold_left (fun v tk => if caches_fix tk then field "time" tk else v) tks dflt.
Definition latest_arrival (dflt : pyval) (tks : list tick) : pyval :=
  fold_left (fun v tk => if caches_fix tk then PFloat (t_fix tk) else v)
    tks dflt.

(** The updater thread's object when it enters its loop. *)
Definition entered (g : GPS) : GPS := set_stopped false (set_running true g).

(** The polls of an updater thread, each with the clock readings of
    the delay that follows it. *)
Definition polls (l : list (tick * list Q)) : list event :=
  map (fun p => Poll (fst p) (snd p)) l.

(** The call of [delay] is seen to return. *)
Definition delay_returns (Delay : delay_value) (clock : list Q) : bool :=
  match delay Delay clock with Returned _ _ => true | _ => false end.

(* ================================================================= *)
(** ** [GPS.delay] against the clock *)

Module Clock.

(** The loop of [GPS.delay].  [clock] lists what the successive calls
    of [time()] return, one per turn of the loop; between two turns the
    thread sleeps 0.1 s.  The result is the number of [sleep(0.1)]
    calls made and the readings not consumed, [None] when the readings
    run out before the loop is left. *)
Fixpoint wait (start Delay : Q) (clock : list Q) : option (nat * list Q) :=
  match clock with
  | [] => None
  | t :: clock' =>
      if Qle_bool Delay (t - start) then Some (O, clock')
      else match wait start Delay clock' with
           | Some (n, rest) => Some (S n, rest)
           | None => None
           end
  end.

(** [GPS.delay]: [start=time()], then the loop. *)
Definition delay (Delay : Q) (clock : list Q) : option (nat * list Q) :=
  match clock with
  | [] => None
  | start :: clock' => wait start Delay clock'
  end.

(** Every reading is at least 0.1 s after the one before it, which is
    what [sleep(0.1)] between two readings gives on a clock that is not
    set back. *)
Fixpoint spaced (prev : Q) (clock : list Q) : bool :=
  match clock with
  | [] => true
  | t :: clock' => Qle_bool (prev + (1 # 10)) t && spaced t clock'
  end.

End Clock.

(* ================================================================= *)
(** ** Auxiliary facts *)

Lemma dict_get_set_ne {V} (k k' : string) (v : V) (d : list (string * V)) :
  String.eqb k k' = false ->
  dict_get String.eqb k (dict_set String.eqb k' v d) = dict_get String.eqb k d.
Proof.
  intros Hne. induction d as [|[k0 v0] d IH]; simpl.
  - now rewrite Hne.
  - destruct (String.eqb k' k0) eqn:E; simpl.
    + apply String.eqb_eq in E. subst k0. now rewrite Hne.
    + now rewrite IH.
Qed.

Lemma py_eq_str (v : pyval) (c : string) :
  py_eq v (PStr c) = match v with PStr s => String.eqb s c | _ => false end.
Proof. destruct v; reflexivity. Qed.

Lemma py_eq_int_distinct (m : pyval) (a b : Z) :
  py_eq m (PInt a) = true -> a <> b -> py_eq m (PInt b) = false.
Proof.
  unfold py_eq. destruct (as_number m) as [x|]; simpl.
  - intros Ha Hab. apply Qeq_bool_iff in Ha.
    destruct (Qeq_bool x (inject_Z b)) eqn:Hb; [|reflexivity].
    apply Qeq_bool_iff in Hb. exfalso. apply Hab.
    apply inject_Z_injective. now rewrite <- Ha, <- Hb.
  - destruct m; discriminate.
Qed.

(** Unfolds the statements of a method and looks through the
    [lastReadingTime] stamp. *)
Ltac run_py :=
  cbv beta iota zeta delta
    [update_gps update_gps_body def try_except bind ret raise return_
     modify get getitem setitem cache_setitem gpsd_socket_next json_loads
     VERBOSE isinstance hashable fst snd];
  rewrite ?dict_get_set_ne by reflexivity;
  rewrite ?py_eq_str;
  cbn [String.eqb Ascii.eqb Bool.eqb].

(** Case analysis on the next test the method makes. *)
Ltac split_py :=
  match goal with
  | |- context [match dict_get String.eqb ?k ?d with _ => _ end] =>
      destruct (dict_get String.eqb k d) eqn:?
  | |- context [if py_eq ?a ?b then _ else _] => destruct (py_eq a b) eqn:?
  | |- context [if String.eqb ?a ?b then _ else _] =>
      destruct (String.eqb a b) eqn:?
  | |- context [match ?v with PNone => _ | _ => _ end] => destruct v
  end.

Ltac poll_cases tk :=
  unfold update_gps, update_gps_body;
  destruct (received tk) as [?e| |[[]|]];
  run_py; repeat (split_py; run_py).

Lemma update_gps_catches (tk : tick) (g : GPS) :
  update_gps tk g =
  match update_gps_body tk g with
  | (Raise e, g') => (Normal tt, emit (Warning_ignoring e) g')
  | (_, g') => (Normal tt, g')
  end.
Proof.
  unfold update_gps, def, try_except.
  destruct (update_gps_body tk g) as [[[]|e|] g']; reflexivity.
Qed.

Lemma update_gps_normal (tk : tick) (g : GPS) : fst (update_gps tk g) = Normal tt.
Proof.
  rewrite update_gps_catches.
  destruct (update_gps_body tk g) as [[[]|e|] g']; reflexivity.
Qed.

Lemma flags_kept (tk : tick) (g : GPS) :
  running (snd (update_gps tk g)) = running g /\
  stopped (snd (update_gps tk g)) = stopped g.
Proof. poll_cases tk; split; reflexivity. Qed.

Lemma timestamp_kept (tk : tick) (g : GPS) :
  caches_fix tk = false ->
  timestamp (snd (update_gps tk g)) = timestamp g /\
  lastGpsReading (snd (update_gps tk g)) = lastGpsReading g.
Proof.
  unfold caches_fix, class_is, all_fix_fields, has, dict_contains, sentence.
  intros H. poll_cases tk; try (split; reflexivity); try discriminate.
Qed.

Lemma class_is_inv (c : string) (tk : tick) :
  class_is c tk = true ->
  exists items, received tk = NextLine (Some (PDict items)) /\
                sentence tk = items /\
                dict_get String.eqb "class" items = Some (PStr c).
Proof.
  unfold class_is, sentence.
  destruct (received tk) as [e| |[[]|]]; try discriminate.
  destruct (dict_get String.eqb "class" items) as [[]|] eqn:E; try discriminate.
  intros H. apply String.eqb_eq in H. subst. exists items. auto.
Qed.

Lemma has_inv (k : string) (items : list (string * pyval)) :
  has k items = true -> exists v, dict_get String.eqb k items = Some v.
Proof.
  unfold has, dict_contains.
  destruct (dict_get String.eqb k items); [eauto|discriminate].
Qed.

Section OneSentence.
Variables (tk : tick) (g : GPS) (items : list (string * pyval)).
Hypothesis Hreceived : received tk = NextLine (Some (PDict items)).

Lemma body_no_fix (m : pyval) :
  dict_get String.eqb "class" items = Some (PStr "TPV") ->
  dict_get String.eqb "mode" items = Some m ->
  py_eq m (PInt 0) || py_eq m (PInt 1) = true ->
  update_gps_body tk g = (Return_, emit Info_no_fix (cached "TPV" tk items g)).
Proof.
  intros Hc Hm Hor. unfold update_gps_body, cached, stamped. rewrite Hreceived.
  run_py. rewrite Hc. run_py. rewrite Hm.
  destruct (py_eq m (PInt 0)); simpl in Hor; [|rewrite Hor]; reflexivity.
Qed.

Lemma body_sky (v : pyval) :
  dict_get String.eqb "class" items = Some (PStr "SKY") ->
  dict_get String.eqb "hdop" items = Some v ->
  update_gps_body tk g = (Normal tt, emit Print_got (set_hdop v (cached "SKY" tk items g))).
Proof.
  intros Hc Hv. unfold update_gps_body, cached, stamped. rewrite Hreceived.
  run_py. rewrite Hc. run_py. rewrite Hv. reflexivity.
Qed.
(** A TPV sentence whose mode is neither 0 nor 1: the assignments of
    the inner [try] run up to the first missing key. *)
Lemma body_tpv (m : pyval) :
  dict_get String.eqb "class" items = Some (PStr "TPV") ->
  dict_get String.eqb "mode" items = Some m ->
  py_eq m (PInt 0) || py_eq m (PInt 1) = false ->
  update_gps_body tk g =
  (Normal tt,
   match dict_get String.eqb "lat" items with
   | None => emit Exception_missing_key (cached "TPV" tk items g)
   | Some a =>
     match dict_get String.eqb "lon" items with
     | None => emit Exception_missing_key (set_lat a (cached "TPV" tk items g))
     | Some o =>
       match dict_get String.eqb "alt" items with
       | None =>
           emit Exception_missing_key (set_lon o (set_lat a (cached "TPV" tk items g)))
       | Some h =>
         match dict_get String.eqb "time" items with
         | None =>
             emit Exception_missing_key
               (set_alt h (set_lon o (set_lat a (cached "TPV" tk items g))))
         | Some t =>
             set_lastGpsReading (PFloat (t_fix tk))
               (set_timestamp t
                  (set_alt h (set_lon o (set_lat a (cached "TPV" tk items g)))))
         end
       end
     end
   end).
Proof.
  intros Hc Hm Hor. unfold update_gps_body, cached, stamped. rewrite Hreceived.
  apply orb_false_iff in Hor as [H0 H1].
  run_py. rewrite Hc. run_py. rewrite Hm, H0, H1.
  destruct (dict_get String.eqb "lat" items); [|reflexivity].
  destruct (dict_get String.eqb "lon" items); [|reflexivity].
  destruct (dict_get String.eqb "alt" items); [|reflexivity].
  destruct (dict_get String.eqb "time" items); reflexivity.
Qed.
End OneSentence.

Lemma step_no_class (tk : tick) (g : GPS) (v : pyval) :
  received tk = NextLine (Some v) -> has_class v = false ->
  exists e, snd (update_gps tk g) = emit (Warning_ignoring e) g.
Proof.
  unfold has_class, has, dict_contains. intros Hr H.
  unfold update_gps, update_gps_body. rewrite Hr.
  destruct v; run_py; try (eexists; reflexivity).
  destruct (dict_get String.eqb "class" items); [discriminate|].
  eexists; reflexivity.
Qed.

Lemma mode_in_inv (tk : tick) (a b : Z) :
  mode_in [a; b] tk = true ->
  exists m, dict_get String.eqb "mode" (sentence tk) = Some m /\
            (py_eq m (PInt a) = true \/ py_eq m (PInt b) = true).
Proof.
  unfold mode_in.
  destruct (dict_get String.eqb "mode" (sentence tk)) as [m|]; [|discriminate].
  simpl. rewrite orb_false_r. intros H. apply orb_true_iff in H. eauto.
Qed.

Lemma mode_fix_not_no_fix (m : pyval) :
  py_eq m (PInt 2) = true \/ py_eq m (PInt 3) = true ->
  py_eq m (PInt 0) || py_eq m (PInt 1) = false.
Proof.
  intros [H|H];
    rewrite (py_eq_int_distinct m _ 0 H), (py_eq_int_distinct m _ 1 H);
    (reflexivity || discriminate).
Qed.

Lemma step_fix (tk : tick) (g : GPS) :
  is_fix tk = true ->
  let g' := snd (update_gps tk g) in
  lat g' = field "lat" tk /\ lon g' = field "lon" tk /\
  alt g' = field "alt" tk /\ timestamp g' = field "time" tk /\
  lastGpsReading g' = PFloat (t_fix tk) /\ hdop g' = hdop g.
Proof.
  unfold is_fix, all_fix_fields, field. intros H.
  apply andb_true_iff in H as [H Hf]. apply andb_true_iff in H as [Hc Hm].
  apply class_is_inv in Hc as (items & Hr & Hs & Hc).
  apply mode_in_inv in Hm as (m & Hm & Hmode). rewrite Hs in *.
  apply mode_fix_not_no_fix in Hmode.
  repeat (apply andb_true_iff in Hf as [Hf ?]).
  repeat match goal with
         | H : has _ _ = true |- _ => apply has_inv in H as [? ?]
         end.
  rewrite update_gps_catches, (body_tpv tk g items Hr m Hc Hm Hmode).
  repeat match goal with
         | H : dict_get _ _ _ = Some _ |- _ => rewrite H
         end.
  cbn. repeat split; reflexivity.
Qed.

Lemma step_no_fix (tk : tick) (g : GPS) :
  is_no_fix tk = true ->
  fst (update_gps_body tk g) = Return_ /\
  get_gps (snd (update_gps tk g)) = get_gps g.
Proof.
  unfold is_no_fix. intros H. apply andb_true_iff in H as [Hc Hm].
  apply class_is_inv in Hc as (items & Hr & Hs & Hc).
  apply mode_in_inv in Hm as (m & Hm & Hmode). rewrite Hs in *.
  apply orb_true_iff in Hmode.
  rewrite update_gps_catches, (body_no_fix tk g items Hr m Hc Hm Hmode).
  split; reflexivity.
Qed.

Lemma step_sky (tk : tick) (g : GPS) :
  is_sky tk = true ->
  let g' := snd (update_gps tk g) in
  hdop g' = field "hdop" tk /\ lat g' = lat g /\ lon g' = lon g /\
  alt g' = alt g /\ timestamp g' = timestamp g /\
  lastGpsReading g' = lastGpsReading g.
Proof.
  unfold is_sky, field. intros H. apply andb_true_iff in H as [Hc Hh].
  apply class_is_inv in Hc as (items & Hr & Hs & Hc). rewrite Hs in *.
  apply has_inv in Hh as [v Hv].
  rewrite update_gps_catches, (body_sky tk g items Hr v Hc Hv), Hv.
  cbn. repeat split; reflexivity.
Qed.

Lemma feed_cons (tk : tick) (tks : list tick) (g : GPS) :
  feed (tk :: tks) g = feed tks (snd (update_gps tk g)).
Proof. reflexivity. Qed.

Lemma feed_app (l1 l2 : list tick) (g : GPS) :
  feed (l1 ++ l2) g = feed l2 (feed l1 g).
Proof. apply fold_left_app. Qed.

Lemma hdop_feed (tks : list tick) (g : GPS) :
  forallb (fun t => is_fix t || is_sky t) tks = true ->
  hdop (feed tks g) = latest_hdop (hdop g) tks.
Proof.
  revert g. induction tks as [|tk tks IH]; intros g H; [reflexivity|].
  simpl in H. apply andb_true_iff in H as [Htk H].
  rewrite feed_cons, IH by assumption. unfold latest_hdop. simpl. f_equal.
  destruct (is_sky tk) eqn:Hsky.
  - apply (step_sky tk g Hsky).
  - rewrite orb_false_r in Htk. apply (step_fix tk g Htk).
Qed.

Lemma position_after_sky (tks : list tick) (g : GPS) :
  forallb is_sky tks = true ->
  lat (feed tks g) = lat g /\ lon (feed tks g) = lon g /\
  alt (feed tks g) = alt g.
Proof.
  revert g. induction tks as [|tk tks IH]; intros g H; [now repeat split|].
  simpl in H. apply andb_true_iff in H as [Htk H].
  rewrite feed_cons. destruct (IH (snd (update_gps tk g)) H) as (-> & -> & ->).
  destruct (step_sky tk g Htk) as (_ & ? & ? & ? & _). now repeat split.
Qed.

Lemma no_fix_yet (tks : list tick) (g : GPS) :
  forallb (fun tk => negb (caches_fix tk)) tks = true ->
  timestamp (feed tks g) = timestamp g /\
  lastGpsReading (feed tks g) = lastGpsReading g.
Proof.
  revert g. induction tks as [|tk tks IH]; intros g H; [now split|].
  simpl in H. apply andb_true_iff in H as [Htk H].
  apply negb_true_iff in Htk.
  rewrite feed_cons. destruct (IH (snd (update_gps tk g)) H) as (-> & ->).
  apply timestamp_kept, Htk.
Qed.

Lemma update_gps_before_cache_normal (tk : tick) (g : GPS) :
  fst (update_gps_before_cache tk g) = Normal tt.
Proof.
  unfold update_gps_before_cache, def, try_except.
  destruct (update_gps_body_before_cache tk g) as [[[]|e|] g']; reflexivity.
Qed.

(** Before the cache exists a poll changes nothing but the log. *)
Lemma before_cache_kept (tk : tick) (g : GPS) :
  exists l, snd (update_gps_before_cache tk g)
            = mkGPS (lat g) (lon g) (alt g) (hdop g) (timestamp g)
                (lastGpsReading g) (gps_cache g) (running g) (stopped g) l.
Proof.
  unfold update_gps_before_cache, update_gps_body_before_cache.
  destruct g. destruct (received tk) as [e| |[[]|]];
    cbv -[emit]; eexists; reflexivity.
Qed.



(** One poll of the thread completes normally and keeps the two
    flags. *)
Lemma thread_poll (has_cache : bool) (tk : tick) (g : GPS) :
  exists g',
    (if has_cache then update_gps tk else update_gps_before_cache tk) g
    = (Normal tt, g') /\
    running g' = running g /\ stopped g' = stopped g.
Proof.
  destruct has_cache.
  - pose proof (update_gps_normal tk g) as H.
    pose proof (flags_kept tk g) as Hk.
    destruct (update_gps tk g) as [c g']. simpl in H, Hk. subst c. eauto.
  - pose proof (update_gps_before_cache_normal tk g) as H.
    destruct (before_cache_kept tk g) as [l Hk].
    destruct (update_gps_before_cache tk g) as [c g']. simpl in H, Hk.
    subst c g'. eauto.
Qed.


(** *** Rounding and the results of the time functions *)

Ltac qcompare_in H :=
  first [ apply (proj2 (Qeq_alt _ _)) in H
        | apply (proj2 (Qlt_alt _ _)) in H
        | apply (proj2 (Qgt_alt _ _)) in H ].



Lemma round_half_even_le (q1 q2 : Q) :
  (q1 <= q2)%Q -> round_half_even q1 <= round_half_even q2.
Proof.
  intros H. pose proof (Qfloor_resp_le q1 q2 H) as Hf.
  unfold round_half_even.
  destruct (Z.eq_dec (Qfloor q1) (Qfloor q2)) as [E|E].
  - rewrite <- E in *.
    destruct (q1 - inject_Z (Qfloor q1) ?= 1 # 2)%Q eqn:C1;
      destruct (q2 - inject_Z (Qfloor q1) ?= 1 # 2)%Q eqn:C2;
      try (destruct (Z.even (Qfloor q1))); try lia;
      qcompare_in C1; qcompare_in C2;
      exfalso; revert C1 C2; generalize (inject_Z (Qfloor q1)); intros x C1 C2;
      lra.
  - assert (Qfloor q1 + 1 <= Qfloor q2) by lia.
    destruct (q1 - inject_Z (Qfloor q1) ?= 1 # 2)%Q;
      destruct (q2 - inject_Z (Qfloor q2) ?= 1 # 2)%Q;
      try (destruct (Z.even (Qfloor q1))); try (destruct (Z.even (Qfloor q2)));
      lia.
Qed.

Lemma of_microseconds_correct (us : Z) :
  (of_microseconds us == us # 1000000)%Q.
Proof. apply Qred_correct. Qed.

Lemma of_microseconds_le (a b : Z) :
  a <= b -> (of_microseconds a <= of_microseconds b)%Q.
Proof.
  intros H. rewrite !of_microseconds_correct. unfold Qle. simpl. lia.
Qed.

(** The time functions neither read nor write the object. *)
Lemma fromtimestamp_pure (v : pyval) :
  exists c, forall g, fromtimestamp v g = (c, g).
Proof.
  unfold fromtimestamp. destruct (as_number v); [|eexists; reflexivity].
  cbv zeta.
  repeat match goal with
         | |- context [if ?b then _ else _] => destruct b
         end; eexists; reflexivity.
Qed.

Lemma timedelta_pure (days seconds : Q) :
  exists c, forall g, timedelta days seconds g = (c, g).
Proof.
  unfold timedelta. cbv zeta.
  match goal with
  | |- context [if ?b then _ else _] => destruct b
  end; eexists; reflexivity.
Qed.

Lemma datetime_add_pure (d : datetime) (t : duration) :
  exists c, forall g, datetime_add d t g = (c, g).
Proof.
  unfold datetime_add. cbv zeta.
  match goal with
  | |- context [if ?b then _ else _] => destruct b
  end; eexists; reflexivity.
Qed.

(** [get_corrected_timestamp] depends on two attributes only and
    leaves the object as it is. *)
Lemma get_corrected_timestamp_pure (now : Q) (ts last : pyval) :
  exists c, forall g,
    timestamp g = ts -> lastGpsReading g = last ->
    get_corrected_timestamp now g = (c, g).
Proof.
  destruct (fromtimestamp_pure ts) as [[d| |] Hd];
    try (eexists; intros g Hts Hl;
         unfold get_corrected_timestamp, bind, get; rewrite Hts, Hd;
         reflexivity).
  destruct (as_number last) as [l|] eqn:El.
  - destruct (timedelta_pure (now - l) 0) as [[t| |] Ht];
      try (eexists; intros g Hts Hl;
           unfold get_corrected_timestamp, bind, get, float_sub;
           rewrite Hts, Hd, Hl, El; cbn [ret]; rewrite Ht; reflexivity).
    destruct (datetime_add_pure d t) as [c Hc].
    exists c. intros g Hts Hl.
    unfold get_corrected_timestamp, bind, get, float_sub.
    rewrite Hts, Hd, Hl, El. cbn [ret]. rewrite Ht. apply Hc.
  - eexists. intros g Hts Hl.
    unfold get_corrected_timestamp, bind, get, float_sub.
    rewrite Hts, Hd, Hl, El. reflexivity.
Qed.

Lemma timedelta_normal (days seconds : Q) (g g' : GPS) (t : duration) :
  timedelta days seconds g = (Normal t, g') ->
  total_seconds t
  = of_microseconds (round_half_even ((days * 86400 + seconds) * 1000000)).
Proof.
  unfold timedelta. cbv zeta.
  match goal with
  | |- context [if ?b then _ else _] => destruct b
  end; [discriminate|].
  intros H. injection H as <- _. reflexivity.
Qed.

Lemma datetime_add_normal (d d' : datetime) (t : duration) (g g' : GPS) :
  datetime_add d t g = (Normal d', g') ->
  epoch_seconds d' = Qred (epoch_seconds d + total_seconds t).
Proof.
  unfold datetime_add. cbv zeta.
  match goal with
  | |- context [if ?b then _ else _] => destruct b
  end; [|discriminate].
  intros H. injection H as <- _. reflexivity.
Qed.

(** What a successful call of [get_corrected_timestamp] returns. *)
Lemma get_corrected_timestamp_normal (now : Q) (g : GPS) (d : datetime) :
  fst (get_corrected_timestamp now g) = Normal d ->
  exists d0 l,
    fst (fromtimestamp (timestamp g) g) = Normal d0 /\
    as_number (lastGpsReading g) = Some l /\
    epoch_seconds d
    = Qred (epoch_seconds d0
            + of_microseconds
                (round_half_even (((now - l) * 86400 + 0) * 1000000))).
Proof.
  unfold get_corrected_timestamp, bind, get.
  destruct (fromtimestamp_pure (timestamp g)) as [[d0| |] Hd]; rewrite Hd;
    try discriminate.
  unfold float_sub.
  destruct (as_number (lastGpsReading g)) as [l|]; [|discriminate].
  cbn [ret].
  destruct (timedelta (now - l) 0 g) as [[t| |] g1] eqn:Ht; try discriminate.
  destruct (datetime_add d0 t g1) as [[d1| |] g2] eqn:Ha; try discriminate.
  cbn [fst]. intros H. injection H as <-.
  exists d0, l. repeat split.
  rewrite (datetime_add_normal _ _ _ _ _ Ha), (timedelta_normal _ _ _ _ _ Ht).
  reflexivity.
Qed.




(* ================================================================= *)
(** ** Properties of the specification *)

(** C1.  A sequence of sentences is processed in which the most recent
    fix (a TPV sentence with mode 2 or 3 and the fields lat, lon, alt,
    time) is [tk]: before it come fixes and SKY sentences in any order,
    after it SKY sentences only.  Then [get_gps] returns the lat, lon
    and alt of [tk], and the hdop of the latest SKY sentence of the
    sequence (the prior hdop when there is none). *)
Theorem C1_position_is_latest_fix (g : GPS) (pre post : list tick) (tk : tick) :
  forallb (fun t => is_fix t || is_sky t) pre = true ->
  is_fix tk = true ->
  forallb is_sky post = true ->
  get_gps (feed (pre ++ tk :: post) g)
  = (field "lat" tk, field "lon" tk, field "alt" tk,
     latest_hdop (hdop g) (pre ++ tk :: post)).
Proof.
  intros Hpre Htk Hpost. unfold get_gps.
  rewrite hdop_feed.
  2:{ rewrite forallb_app. simpl. rewrite Hpre, Htk. simpl.
      rewrite forallb_forall in Hpost. apply forallb_forall.
      intros t Ht. rewrite (Hpost t Ht). apply orb_true_r. }
  rewrite feed_app, feed_cons.
  destruct (position_after_sky post (snd (update_gps tk (feed pre g))) Hpost)
    as (-> & -> & ->).
  destruct (step_fix tk (feed pre g) Htk) as (-> & -> & -> & _).
  reflexivity.
Qed.

Lemma C1_witness :
  get_gps (feed ([poll sky_hdop 1; poll tpv_fix 2] ++ poll tpv_fix2 3 :: []) init)
  = (PFloat (404 # 10), PFloat (-74 # 1), PFloat 3, PFloat (12 # 10)).
Proof.
  apply (C1_position_is_latest_fix init [poll sky_hdop 1; poll tpv_fix 2] []
           (poll tpv_fix2 3)); reflexivity.
Defined.

(** C2.  Two seconds after a fix with GPS time 1700000000 the claimed
    corrected time is 1700000002; [get_corrected_timestamp] passes the
    elapsed seconds to [timedelta] as days and returns 1700172800, and
    two calls one second apart differ by 86400 seconds. *)
Theorem C2_elapsed_seconds_counted_as_days :
  let g := feed [mkTick (NextLine (Some tpv_fix)) 100 100] init in
  exists d1 d2,
    get_corrected_timestamp 102 g = (Normal d1, g) /\
    get_corrected_timestamp 103 g = (Normal d2, g) /\
    (epoch_seconds d1 == 1700000000 + 86400 * (102 - 100))%Q /\
    ~ (epoch_seconds d1 == 1700000000 + (102 - 100))%Q /\
    (epoch_seconds d2 - epoch_seconds d1 == 86400)%Q /\
    ~ (epoch_seconds d2 - epoch_seconds d1 == 103 - 102)%Q.
Proof.
  intros g.
  exists (mkDatetime (1700172800 # 1)), (mkDatetime (1700259200 # 1)).
  split; [reflexivity|]. split; [reflexivity|].
  simpl epoch_seconds. repeat split; try reflexivity; intros H; discriminate H.
Qed.

(** C3, as stated, fails: a TPV sentence with mode 3 and lat, lon, alt
    but no time overwrites lat (and lon and alt) before the missing key
    is met. *)
Lemma C3_counterexample :
  is_incomplete_fix (poll tpv_no_time 100) = true /\
  ~ fix_fields_kept init (snd (update_gps (poll tpv_no_time 100) init)).
Proof.
  split; [reflexivity|]. intros (Hlat & _). discriminate Hlat.
Qed.

(** C3, amended.  A TPV sentence with mode 2 or 3 that lacks one of lat,
    lon, alt, time sets, in this order, the fields that come before the
    first missing one and leaves the first missing field, every later
    field and lastGpsReading at their prior values (hdop too).  A
    sentence without lat therefore changes no snapshot field. *)
Theorem C3_fields_kept_from_first_missing (g : GPS) (tk : tick) :
  is_incomplete_fix tk = true ->
  let g' := snd (update_gps tk g) in
  lastGpsReading g' = lastGpsReading g /\ hdop g' = hdop g /\
  match dict_get String.eqb "lat" (sentence tk) with
  | None =>
      lat g' = lat g /\ lon g' = lon g /\ alt g' = alt g /\
      timestamp g' = timestamp g
  | Some a =>
      lat g' = a /\
      match dict_get String.eqb "lon" (sentence tk) with
      | None => lon g' = lon g /\ alt g' = alt g /\ timestamp g' = timestamp g
      | Some o =>
          lon g' = o /\
          match dict_get String.eqb "alt" (sentence tk) with
          | None => alt g' = alt g /\ timestamp g' = timestamp g
          | Some h => alt g' = h /\ timestamp g' = timestamp g
          end
      end
  end.
Proof.
  unfold is_incomplete_fix, all_fix_fields, has, dict_contains. intros H.
  apply andb_true_iff in H as [H Hf]. apply andb_true_iff in H as [Hc Hm].
  apply class_is_inv in Hc as (items & Hr & Hs & Hc).
  apply mode_in_inv in Hm as (m & Hm & Hmode). rewrite Hs in *.
  apply mode_fix_not_no_fix in Hmode.
  rewrite update_gps_catches, (body_tpv tk g items Hr m Hc Hm Hmode).
  destruct (dict_get String.eqb "lat" items);
    [|cbn; repeat split; reflexivity].
  destruct (dict_get String.eqb "lon" items);
    [|cbn; repeat split; reflexivity].
  destruct (dict_get String.eqb "alt" items);
    [|cbn; repeat split; reflexivity].
  destruct (dict_get String.eqb "time" items);
    [discriminate Hf|cbn; repeat split; reflexivity].
Qed.

Lemma C3_witness :
  let g' := snd (update_gps (poll tpv_no_time 100) init) in
  lastGpsReading g' = PNone /\ hdop g' = PNone /\
  lat g' = PFloat (515 # 10) /\ lon g' = PFloat (-1 # 10) /\
  alt g' = PFloat 10 /\ timestamp g' = PNone.
Proof.
  apply (C3_fields_kept_from_first_missing init (poll tpv_no_time 100)).
  reflexivity.
Defined.

(** C4.  [getSentence] calls [which.toupper()], a method [str] does
    not have: for every argument and every state it raises
    [AttributeError] before the cache is looked at, whether or not the
    class asked for has been cached. *)
Theorem C4_getSentence_raises (which : string) (g : GPS) :
  getSentence which g = (Raise AttributeError, g).
Proof. reflexivity. Qed.

Example getSentence_of_cached_class :
  let g := feed [poll tpv_fix 100] init in
  dict_contains py_eq (PStr "TPV") (gps_cache g) = true /\
  fst (getSentence "TPV" g) = Raise AttributeError /\
  fst (getSentence "tpv" g) = Raise AttributeError.
Proof. repeat split. Qed.

(** C5.  [getSentences] reads [self.gpc_cache], an attribute the object
    never has (the cache is [gps_cache]): in every state it raises
    [AttributeError] instead of returning the cached class names. *)
Theorem C5_getSentences_raises (g : GPS) :
  getSentences g = (Raise AttributeError, g).
Proof. reflexivity. Qed.

(** C6.  Processing a TPV sentence whose mode is 0 or 1 raises nothing
    (the body of [update_gps] leaves through its [return], and the call
    completes normally) and [get_gps] returns what it returned before. *)
Theorem C6_no_fix_keeps_position (g : GPS) (tk : tick) :
  is_no_fix tk = true ->
  fst (update_gps_body tk g) = Return_ /\
  fst (update_gps tk g) = Normal tt /\
  get_gps (snd (update_gps tk g)) = get_gps g.
Proof.
  intros H. destruct (step_no_fix tk g H) as [Hb Hg].
  repeat split; [exact Hb|apply update_gps_normal|exact Hg].
Qed.

Lemma C6_witness :
  let g := feed [poll sky_hdop 1; poll tpv_fix 2] init in
  fst (update_gps_body (poll tpv_no_fix 3) g) = Return_ /\
  fst (update_gps (poll tpv_no_fix 3) g) = Normal tt /\
  get_gps (snd (update_gps (poll tpv_no_fix 3) g))
  = (PFloat (515 # 10), PFloat (-1 # 10), PFloat 10, PFloat (12 # 10)).
Proof.
  apply (C6_no_fix_keeps_position
           (feed [poll sky_hdop 1; poll tpv_fix 2] init) (poll tpv_no_fix 3)).
  reflexivity.
Defined.

(** C7, as stated, fails: on a fresh object [get_corrected_timestamp]
    raises the [TypeError] of [datetime.fromtimestamp(None)], which is
    neither an UninitializedState condition nor a returned sentinel. *)
Lemma C7_counterexample :
  ~ signals_uninitialized (fst (get_corrected_timestamp 0 init)).
Proof. intros [H|[d H]]; discriminate H. Qed.

(** C7, amended.  As long as no poll has cached a fix,
    [get_corrected_timestamp] raises [TypeError] to its caller and
    leaves the object as it was. *)
Theorem C7_no_fix_raises_TypeError (tks : list tick) (now : Q) :
  forallb (fun tk => negb (caches_fix tk)) tks = true ->
  get_corrected_timestamp now (feed tks init)
  = (Raise TypeError, feed tks init).
Proof.
  intros H. destruct (no_fix_yet tks init H) as [Hts _].
  unfold get_corrected_timestamp, bind, get, fromtimestamp.
  rewrite Hts. reflexivity.
Qed.

Lemma C7_witness :
  let g := feed [poll sky_hdop 1; poll tpv_no_fix 2; poll tpv_no_time 3] init in
  get_corrected_timestamp 4 g = (Raise TypeError, g).
Proof.
  apply (C7_no_fix_raises_TypeError
           [poll sky_hdop 1; poll tpv_no_fix 2; poll tpv_no_time 3] 4).
  reflexivity.
Defined.

(** C8.  Processing a SKY sentence that has an hdop field sets hdop to
    that value and leaves lat, lon and alt unchanged. *)
Theorem C8_sky_sets_hdop_only (g : GPS) (tk : tick) :
  is_sky tk = true ->
  let g' := snd (update_gps tk g) in
  hdop g' = field "hdop" tk /\
  lat g' = lat g /\ lon g' = lon g /\ alt g' = alt g.
Proof.
  intros H. destruct (step_sky tk g H) as (? & ? & ? & ? & _).
  now repeat split.
Qed.

Lemma C8_witness :
  let g := feed [poll tpv_fix 1] init in
  let g' := snd (update_gps (poll sky_hdop 2) g) in
  hdop g' = PFloat (12 # 10) /\
  lat g' = PFloat (515 # 10) /\ lon g' = PFloat (-1 # 10) /\
  alt g' = PFloat 10.
Proof.
  apply (C8_sky_sets_hdop_only (feed [poll tpv_fix 1] init) (poll sky_hdop 2)).
  reflexivity.
Defined.



(** C10.  A message that decodes to JSON but is not an object with a
    "class" member has no effect on the cache or on any snapshot
    attribute: [update_gps] completes normally and only logs the
    exception it caught. *)
Theorem C10_classless_message_changes_nothing (g : GPS) (tk : tick) (v : pyval) :
  received tk = NextLine (Some v) ->
  has_class v = false ->
  let g' := snd (update_gps tk g) in
  fst (update_gps tk g) = Normal tt /\
  gps_cache g' = gps_cache g /\
  lat g' = lat g /\ lon g' = lon g /\ alt g' = alt g /\ hdop g' = hdop g /\
  timestamp g' = timestamp g /\ lastGpsReading g' = lastGpsReading g /\
  exists e, logger g' = Warning_ignoring e :: logger g.
Proof.
  intros Hr Hc. split; [apply update_gps_normal|].
  destruct (step_no_class tk g v Hr Hc) as [e ->].
  repeat split. exists e. reflexivity.
Qed.

Lemma C10_witness :
  let g := feed [poll sky_hdop 1; poll tpv_fix 2] init in
  let tk := poll (PDict [("mode", PInt 3); ("lat", PFloat 1)]) 3 in
  let g' := snd (update_gps tk g) in
  fst (update_gps tk g) = Normal tt /\
  gps_cache g' = gps_cache g /\
  lat g' = lat g /\ lon g' = lon g /\ alt g' = alt g /\ hdop g' = hdop g /\
  timestamp g' = timestamp g /\ lastGpsReading g' = lastGpsReading g /\
  exists e, logger g' = Warning_ignoring e :: logger g.
Proof.
  apply (C10_classless_message_changes_nothing
           (feed [poll sky_hdop 1; poll tpv_fix 2] init)
           (poll (PDict [("mode", PInt 3); ("lat", PFloat 1)]) 3)
           (PDict [("mode", PInt 3); ("lat", PFloat 1)]));
    reflexivity.
Defined.

(* ================================================================= *)
(** ** Further properties: the cache *)

Lemma py_eq_sym (a b : pyval) : py_eq a b = py_eq b a.
Proof.
  unfold py_eq.
  destruct (as_number a) as [x|] eqn:Ha, (as_number b) as [y|] eqn:Hb;
    try reflexivity.
  - destruct (Qeq_bool x y) eqn:E, (Qeq_bool y x) eqn:E'; try reflexivity.
    + apply Qeq_bool_iff in E. symmetry in E. apply Qeq_bool_iff in E.
      congruence.
    + apply Qeq_bool_iff in E'. symmetry in E'. apply Qeq_bool_iff in E'.
      congruence.
  - destruct a, b; try reflexivity. apply String.eqb_sym.
Qed.

Lemma py_eq_hashable_refl (a : pyval) : hashable a = true -> py_eq a a = true.
Proof.
  destruct a; try discriminate; intros _; unfold py_eq; simpl;
    try reflexivity; try (apply Qeq_bool_iff; reflexivity).
  apply String.eqb_refl.
Qed.

(** Keys that are equal are equal to the same keys. *)
Lemma py_eq_trans (a b : pyval) :
  py_eq a b = true -> forall c, py_eq c a = py_eq c b.
Proof.
  unfold py_eq. intros H c.
  destruct (as_number a) as [x|] eqn:Ha, (as_number b) as [y|] eqn:Hb;
    try discriminate.
  - destruct (as_number c) as [z|]; [|reflexivity].
    apply Qeq_bool_iff in H.
    destruct (Qeq_bool z x) eqn:E, (Qeq_bool z y) eqn:E'; try reflexivity.
    + apply Qeq_bool_iff in E. rewrite H in E. apply Qeq_bool_iff in E.
      congruence.
    + apply Qeq_bool_iff in E'. rewrite <- H in E'. apply Qeq_bool_iff in E'.
      congruence.
  - destruct (as_number c) as [z|] eqn:Hc; [reflexivity|].
    destruct a, b; try discriminate; try reflexivity.
    apply String.eqb_eq in H. now subst.
Qed.

Section DictFacts.
Context {K V : Type} (eqk : K -> K -> bool).
Hypothesis eqk_sym : forall a b, eqk a b = eqk b a.
Hypothesis eqk_trans : forall a b, eqk a b = true -> forall c, eqk c a = eqk c b.

(** Lookup after assignment. *)
Lemma dict_get_set (k k' : K) (v : V) (d : list (K * V)) :
  dict_get eqk k' (dict_set eqk k v d)
  = if eqk k' k then Some v else dict_get eqk k' d.
Proof.
  induction d as [|[k0 v0] d IH]; simpl; [reflexivity|].
  destruct (eqk k k0) eqn:E; simpl.
  - rewrite <- (eqk_trans k k0 E k'). destruct (eqk k' k); reflexivity.
  - rewrite IH. destruct (eqk k' k0) eqn:E0; [|reflexivity].
    destruct (eqk k' k) eqn:E1; [|reflexivity].
    rewrite (eqk_sym k' k) in E1. rewrite (eqk_trans k' k0 E0 k) in E1.
    congruence.
Qed.
End DictFacts.

Lemma cache_get_set (k c v : pyval) (d : list (pyval * pyval)) :
  dict_get py_eq k (dict_set py_eq c v d)
  = if py_eq k c then Some v else dict_get py_eq k d.
Proof. apply dict_get_set; [apply py_eq_sym|apply py_eq_trans]. Qed.

Lemma string_get_set (k k' : string) (v : pyval) (d : list (string * pyval)) :
  dict_get String.eqb k' (dict_set String.eqb k v d)
  = if String.eqb k' k then Some v else dict_get String.eqb k' d.
Proof.
  apply dict_get_set; [apply String.eqb_sym|].
  intros a b H c. apply String.eqb_eq in H. now subst.
Qed.

(** What one poll does to the cache. *)
Lemma cache_after_poll (tk : tick) (g : GPS) :
  gps_cache (snd (update_gps tk g))
  = match cache_key tk with
    | Some c => dict_set py_eq c (stamped tk (sentence tk)) (gps_cache g)
    | None => gps_cache g
    end.
Proof.
  unfold cache_key, sentence, stamped.
  poll_cases tk; try reflexivity.
Qed.

Lemma cache_key_hashable (tk : tick) (c : pyval) :
  cache_key tk = Some c -> hashable c = true.
Proof.
  unfold cache_key. destruct (received tk) as [e| |[[]|]]; try discriminate.
  destruct (dict_get String.eqb "class" items) as [c'|]; [|discriminate].
  destruct (hashable c') eqn:E; [|discriminate]. congruence.
Qed.

(** X1.  A sentence whose class can be hashed is in the cache under
    that class once [update_gps] has processed it, whatever else the
    sentence holds or lacks: the cached object carries the reading time
    under "lastReadingTime" and every other member of the sentence
    unchanged. *)
Theorem X1_sentence_cached_with_reading_time (tk : tick) (g : GPS) (c : pyval) :
  cache_key tk = Some c ->
  exists d,
    dict_get py_eq c (gps_cache (snd (update_gps tk g))) = Some (PDict d) /\
    dict_get String.eqb "lastReadingTime" d = Some (PFloat (t_read tk)) /\
    forall k, String.eqb k "lastReadingTime" = false ->
              dict_get String.eqb k d = dict_get String.eqb k (sentence tk).
Proof.
  intros Hc.
  exists (dict_set String.eqb "lastReadingTime" (PFloat (t_read tk))
            (sentence tk)).
  rewrite cache_after_poll, Hc, cache_get_set.
  rewrite (py_eq_hashable_refl c (cache_key_hashable tk c Hc)).
  split; [reflexivity|]. split.
  - now rewrite string_get_set.
  - intros k Hk. now rewrite string_get_set, Hk.
Qed.

Lemma X1_witness :
  exists d,
    dict_get py_eq (PStr "TPV")
      (gps_cache (snd (update_gps (poll tpv_no_fix 7) init))) = Some (PDict d) /\
    dict_get String.eqb "lastReadingTime" d = Some (PFloat 7) /\
    forall k, String.eqb k "lastReadingTime" = false ->
              dict_get String.eqb k d
              = dict_get String.eqb k (sentence (poll tpv_no_fix 7)).
Proof.
  apply (X1_sentence_cached_with_reading_time (poll tpv_no_fix 7) init
           (PStr "TPV")).
  reflexivity.
Defined.

Lemma cache_after_feed (tks : list tick) (g : GPS) (k : pyval) :
  dict_get py_eq k (gps_cache (feed tks g))
  = latest_of k tks (dict_get py_eq k (gps_cache g)).
Proof.
  revert g. induction tks as [|tk tks IH]; intros g; [reflexivity|].
  rewrite feed_cons, IH, cache_after_poll. unfold latest_of. simpl.
  f_equal. destruct (cache_key tk) as [c|]; [|reflexivity].
  apply cache_get_set.
Qed.

(** X2.  After any sequence of polls, looking a key up in the cache
    gives the most recent sentence of the sequence that was cached under
    an equal key, and what the cache held before when there is none:
    a sentence is superseded by the next one of its class and by
    nothing else. *)
Theorem X2_cache_holds_latest_of_each_class (tks : list tick) (g : GPS) (k : pyval) :
  dict_get py_eq k (gps_cache (feed tks g))
  = latest_of k tks (dict_get py_eq k (gps_cache g)).
Proof. apply cache_after_feed. Qed.

Lemma latest_of_some (k : pyval) (tks : list tick) (v : pyval) :
  exists w, latest_of k tks (Some v) = Some w.
Proof.
  revert v. induction tks as [|tk tks IH]; intros v; [now exists v|].
  unfold latest_of. simpl.
  destruct (cache_key tk) as [c|]; [destruct (py_eq k c)|]; apply IH.
Qed.

(** X3.  No poll removes a key from the cache: a class that has been
    cached stays cached. *)
Theorem X3_cached_class_stays (tks : list tick) (g : GPS) (k : pyval) :
  dict_contains py_eq k (gps_cache g) = true ->
  dict_contains py_eq k (gps_cache (feed tks g)) = true.
Proof.
  unfold dict_contains. rewrite cache_after_feed.
  destruct (dict_get py_eq k (gps_cache g)) as [v|]; [|discriminate].
  intros _. destruct (latest_of_some k tks v) as [w ->]. reflexivity.
Qed.

Lemma X3_witness :
  dict_contains py_eq (PStr "SKY")
    (gps_cache (feed [poll tpv_fix 2; poll (PList []) 3; poll tpv_no_fix 4]
                  (feed [poll sky_hdop 1] init))) = true.
Proof.
  apply (X3_cached_class_stays
           [poll tpv_fix 2; poll (PList []) 3; poll tpv_no_fix 4]
           (feed [poll sky_hdop 1] init) (PStr "SKY")).
  reflexivity.
Defined.

Lemma cache_contains_set (k c v : pyval) (d : list (pyval * pyval)) :
  dict_contains py_eq k (dict_set py_eq c v d)
  = py_eq k c || dict_contains py_eq k d.
Proof.
  unfold dict_contains. rewrite cache_get_set. now destruct (py_eq k c).
Qed.

Lemma distinct_keys_set (c v : pyval) (d : list (pyval * pyval)) :
  hashable c = true -> distinct_keys d = true ->
  distinct_keys (dict_set py_eq c v d) = true.
Proof.
  intros Hc. induction d as [|[k0 v0] d IH]; simpl; intros H.
  - now rewrite Hc.
  - apply andb_true_iff in H as [H Hd]. apply andb_true_iff in H as [Hk Hn].
    destruct (py_eq c k0) eqn:E; simpl.
    + now rewrite Hk, Hn, Hd.
    + rewrite Hk, cache_contains_set, (py_eq_sym k0 c), E, (IH Hd).
      simpl. now rewrite Hn.
Qed.

(** X4.  The cache never holds two sentences of one class: when no two
    of its keys are equal, no two are equal after any sequence of
    polls.  The cache of a new object is empty, so this holds in every
    state the object reaches. *)
Theorem X4_one_sentence_per_class (tks : list tick) (g : GPS) :
  distinct_keys (gps_cache g) = true ->
  distinct_keys (gps_cache (feed tks g)) = true.
Proof.
  revert g. induction tks as [|tk tks IH]; intros g H; [exact H|].
  rewrite feed_cons. apply IH. rewrite cache_after_poll.
  destruct (cache_key tk) as [c|] eqn:Hc; [|exact H].
  apply distinct_keys_set; [apply (cache_key_hashable tk c Hc)|exact H].
Qed.

Lemma X4_witness :
  distinct_keys
    (gps_cache (feed [poll sky_hdop 1; poll tpv_fix 2; poll tpv_fix2 3;
                      poll sky_hdop 4] init)) = true.
Proof.
  apply (X4_one_sentence_per_class
           [poll sky_hdop 1; poll tpv_fix 2; poll tpv_fix2 3; poll sky_hdop 4]
           init).
  reflexivity.
Defined.

(* ================================================================= *)
(** ** Further properties: the snapshot *)

(** Closes the cases of [poll_cases] that contradict a hypothesis on
    the sentence. *)
Ltac absurd_case H :=
  first
    [ discriminate H
    | cbn in H; discriminate H
    | match goal with
      | E1 : String.eqb ?s ?a = true, E2 : String.eqb ?s ?b = true |- _ =>
          apply String.eqb_eq in E1; rewrite E1 in E2; cbn in E2;
          discriminate E2
      end ].

Lemma only_TPV_writes_the_fix (tk : tick) (g : GPS) :
  class_is "TPV" tk = false ->
  fix_fields_kept g (snd (update_gps tk g)).
Proof.
  unfold class_is, sentence, fix_fields_kept. intros H.
  poll_cases tk; try (repeat split; reflexivity); absurd_case H.
Qed.

Lemma only_SKY_writes_hdop (tk : tick) (g : GPS) :
  class_is "SKY" tk = false ->
  hdop (snd (update_gps tk g)) = hdop g.
Proof.
  unfold class_is, sentence. intros H.
  poll_cases tk; try reflexivity; absurd_case H.
Qed.

(** X5.  Only a TPV sentence writes lat, lon, alt, timestamp or
    lastGpsReading: a sequence of polls none of which delivers a TPV
    sentence (sentences of other classes, lines that are no object, no
    line, errors) leaves the five at their values. *)
Theorem X5_only_TPV_writes_the_fix (tks : list tick) (g : GPS) :
  forallb (fun tk => negb (class_is "TPV" tk)) tks = true ->
  fix_fields_kept g (feed tks g).
Proof.
  revert g. induction tks as [|tk tks IH]; intros g H.
  - repeat split.
  - simpl in H. apply andb_true_iff in H as [Htk H].
    apply negb_true_iff in Htk. rewrite feed_cons.
    pose proof (only_TPV_writes_the_fix tk g Htk) as Hstep.
    pose proof (IH (snd (update_gps tk g)) H) as Hrest.
    unfold fix_fields_kept in *.
    destruct Hrest as (-> & -> & -> & -> & ->). exact Hstep.
Qed.

Lemma X5_witness :
  fix_fields_kept (feed [poll tpv_fix 1] init)
    (feed [poll sky_hdop 2; poll (PList []) 3;
           poll (PDict [("class", PStr "GST")]) 4]
       (feed [poll tpv_fix 1] init)).
Proof.
  apply (X5_only_TPV_writes_the_fix
           [poll sky_hdop 2; poll (PList []) 3;
            poll (PDict [("class", PStr "GST")]) 4]
           (feed [poll tpv_fix 1] init)).
  reflexivity.
Defined.

(** X6.  Only a SKY sentence writes hdop: a sequence of polls none of
    which delivers a SKY sentence leaves hdop at its value. *)
Theorem X6_only_SKY_writes_hdop (tks : list tick) (g : GPS) :
  forallb (fun tk => negb (class_is "SKY" tk)) tks = true ->
  hdop (feed tks g) = hdop g.
Proof.
  revert g. induction tks as [|tk tks IH]; intros g H; [reflexivity|].
  simpl in H. apply andb_true_iff in H as [Htk H].
  apply negb_true_iff in Htk. rewrite feed_cons.
  rewrite (IH (snd (update_gps tk g)) H).
  apply only_SKY_writes_hdop, Htk.
Qed.

Lemma X6_witness :
  hdop (feed [poll tpv_fix2 2; poll tpv_no_fix 3; poll tpv_no_time 4]
          (feed [poll sky_hdop 1] init))
  = hdop (feed [poll sky_hdop 1] init).
Proof.
  apply (X6_only_SKY_writes_hdop
           [poll tpv_fix2 2; poll tpv_no_fix 3; poll tpv_no_time 4]
           (feed [poll sky_hdop 1] init)).
  reflexivity.
Defined.

Section IncompleteSentence.
Variables (tk : tick) (g : GPS) (items : list (string * pyval)).
Hypothesis Hreceived : received tk = NextLine (Some (PDict items)).

Lemma body_tpv_no_mode :
  dict_get String.eqb "class" items = Some (PStr "TPV") ->
  dict_get String.eqb "mode" items = None ->
  update_gps_body tk g = (Raise KeyError, cached "TPV" tk items g).
Proof.
  intros Hc Hm. unfold update_gps_body, cached, stamped. rewrite Hreceived.
  run_py. rewrite Hc. run_py. rewrite Hm. reflexivity.
Qed.

Lemma body_sky_no_hdop :
  dict_get String.eqb "class" items = Some (PStr "SKY") ->
  dict_get String.eqb "hdop" items = None ->
  update_gps_body tk g = (Raise KeyError, cached "SKY" tk items g).
Proof.
  intros Hc Hh. unfold update_gps_body, cached, stamped. rewrite Hreceived.
  run_py. rewrite Hc. run_py. rewrite Hh. reflexivity.
Qed.
End IncompleteSentence.

Lemma has_false_inv (k : string) (items : list (string * pyval)) :
  negb (has k items) = true -> dict_get String.eqb k items = None.
Proof.
  unfold has, dict_contains.
  destruct (dict_get String.eqb k items); [discriminate|reflexivity].
Qed.

Lemma cached_contains (c : string) (tk : tick) (items : list (string * pyval))
    (g : GPS) (r : emitted) :
  dict_contains py_eq (PStr c) (gps_cache (emit r (cached c tk items g))) = true.
Proof.
  unfold cached. cbn [gps_cache emit set_gps_cache].
  rewrite cache_contains_set, py_eq_hashable_refl; reflexivity.
Qed.

(** X7.  A TPV sentence without "mode" and a SKY sentence without
    "hdop" are cached like any other and then give up on the missing
    key: no snapshot attribute changes and the [KeyError] is logged as
    a warning. *)
Theorem X7_missing_class_member_changes_no_snapshot (tk : tick) (g : GPS) :
  lacks_class_member tk = true ->
  let g' := snd (update_gps tk g) in
  fix_fields_kept g g' /\ hdop g' = hdop g /\
  logger g' = Warning_ignoring KeyError :: logger g /\
  dict_contains py_eq (PStr (if class_is "TPV" tk then "TPV" else "SKY"))
    (gps_cache g') = true.
Proof.
  unfold lacks_class_member. intros H. apply orb_true_iff in H.
  destruct H as [H|H]; apply andb_true_iff in H as [Hc Hk];
    pose proof Hc as Hcls;
    apply class_is_inv in Hc as (items & Hr & Hs & Hc); rewrite Hs in Hk;
    apply has_false_inv in Hk; rewrite update_gps_catches.
  - rewrite (body_tpv_no_mode tk g items Hr Hc Hk), Hcls.
    cbn [snd]. split; [|split; [|split]];
      [repeat split|reflexivity|reflexivity|apply cached_contains].
  - rewrite (body_sky_no_hdop tk g items Hr Hc Hk).
    replace (class_is "TPV" tk) with false.
    + cbn [snd]. split; [|split; [|split]];
        [repeat split|reflexivity|reflexivity|apply cached_contains].
    + unfold class_is. rewrite Hs, Hc. reflexivity.
Qed.

Lemma X7_witness :
  let tk := poll (PDict [("class", PStr "TPV"); ("lat", PFloat 1)]) 3 in
  let g := feed [poll sky_hdop 1; poll tpv_fix 2] init in
  let g' := snd (update_gps tk g) in
  fix_fields_kept g g' /\ hdop g' = hdop g /\
  logger g' = Warning_ignoring KeyError :: logger g /\
  dict_contains py_eq (PStr (if class_is "TPV" tk then "TPV" else "SKY"))
    (gps_cache g') = true.
Proof.
  apply (X7_missing_class_member_changes_no_snapshot
           (poll (PDict [("class", PStr "TPV"); ("lat", PFloat 1)]) 3)
           (feed [poll sky_hdop 1; poll tpv_fix 2] init)).
  reflexivity.
Defined.

(* ================================================================= *)
(** ** Further properties: the GPS time *)

Lemma caches_fix_inv (tk : tick) :
  caches_fix tk = true ->
  exists items m a o h t,
    received tk = NextLine (Some (PDict items)) /\ sentence tk = items /\
    dict_get String.eqb "class" items = Some (PStr "TPV") /\
    dict_get String.eqb "mode" items = Some m /\
    py_eq m (PInt 0) || py_eq m (PInt 1) = false /\
    dict_get String.eqb "lat" items = Some a /\
    dict_get String.eqb "lon" items = Some o /\
    dict_get String.eqb "alt" items = Some h /\
    dict_get String.eqb "time" items = Some t.
Proof.
  unfold caches_fix, all_fix_fields. intros H.
  apply andb_true_iff in H as [H Hf]. apply andb_true_iff in H as [Hc Hm].
  apply class_is_inv in Hc as (items & Hr & Hs & Hc). rewrite Hs in Hm, Hf.
  destruct (dict_get String.eqb "mode" items) as [m|] eqn:Emode;
    [|discriminate].
  apply negb_true_iff in Hm.
  apply andb_true_iff in Hf as [Hf Ht]. apply andb_true_iff in Hf as [Hf Hh].
  apply andb_true_iff in Hf as [Ha Ho].
  apply has_inv in Ha as [a Ha]. apply has_inv in Ho as [o Ho].
  apply has_inv in Hh as [h Hh]. apply has_inv in Ht as [t Ht].
  exists items, m, a, o, h, t. repeat (split; [assumption|]). assumption.
Qed.

Lemma fix_cached (tk : tick) (g : GPS) :
  caches_fix tk = true ->
  timestamp (snd (update_gps tk g)) = field "time" tk /\
  lastGpsReading (snd (update_gps tk g)) = PFloat (t_fix tk).
Proof.
  intros H.
  destruct (caches_fix_inv tk H)
    as (items & m & a & o & h & t & Hr & Hs & Hc & Hm & Hmode & Ha & Ho & Hh & Ht).
  rewrite update_gps_catches, (body_tpv tk g items Hr m Hc Hm Hmode).
  unfold field. rewrite Hs, Ha, Ho, Hh, Ht. split; reflexivity.
Qed.

(** X8.  The GPS time and its arrival time are written together and
    by the same sentence: a poll sets [timestamp] to the sentence's
    "time" and [lastGpsReading] to the clock exactly when it delivers a
    TPV sentence that has lat, lon, alt and time and whose mode equals
    neither 0 nor 1 (the mode is not required to be 2 or 3); any other
    poll leaves both as they were. *)
Theorem X8_gps_time_and_arrival_time_written_together (tk : tick) (g : GPS) :
  timestamp (snd (update_gps tk g))
  = (if caches_fix tk then field "time" tk else timestamp g) /\
  lastGpsReading (snd (update_gps tk g))
  = (if caches_fix tk then PFloat (t_fix tk) else lastGpsReading g).
Proof.
  destruct (caches_fix tk) eqn:H.
  - apply fix_cached, H.
  - apply timestamp_kept, H.
Qed.



(** X10.  The corrected time never runs backwards: of two calls on the
    same object, the one made at the later clock reading returns the
    later (or the same) instant. *)
Theorem X10_corrected_time_is_monotone (g : GPS) (now1 now2 : Q) (d1 d2 : datetime) :
  (now1 <= now2)%Q ->
  fst (get_corrected_timestamp now1 g) = Normal d1 ->
  fst (get_corrected_timestamp now2 g) = Normal d2 ->
  (epoch_seconds d1 <= epoch_seconds d2)%Q.
Proof.
  intros Hle H1 H2.
  apply get_corrected_timestamp_normal in H1 as (a & l & Ha & Hl & ->).
  apply get_corrected_timestamp_normal in H2 as (a' & l' & Ha' & Hl' & ->).
  assert (a' = a) by congruence. assert (l' = l) by congruence. subst a' l'.
  rewrite !Qred_correct. apply Qplus_le_r, of_microseconds_le.
  apply round_half_even_le. lra.
Qed.

Lemma X10_witness :
  (epoch_seconds (mkDatetime (1700086400 # 1))
   <= epoch_seconds (mkDatetime (1700259200 # 1)))%Q.
Proof.
  apply (X10_corrected_time_is_monotone (snd (update_gps (poll tpv_fix 5) init))
           6 8); [discriminate|reflexivity|reflexivity].
Defined.

(** X11.  When the "time" of a cached fix is not a number (gpsd itself
    reports an ISO 8601 string), every later call of
    [get_corrected_timestamp] raises [TypeError]. *)
Theorem X11_non_numeric_time_raises (tk : tick) (g : GPS) (now : Q) :
  caches_fix tk = true ->
  as_number (field "time" tk) = None ->
  get_corrected_timestamp now (snd (update_gps tk g))
  = (Raise TypeError, snd (update_gps tk g)).
Proof.
  intros H Hts. destruct (fix_cached tk g H) as [Ht _].
  unfold get_corrected_timestamp, bind, get, fromtimestamp.
  rewrite Ht, Hts. reflexivity.
Qed.

Lemma X11_witness :
  get_corrected_timestamp 6 (snd (update_gps (poll tpv_iso_time 5) init))
  = (Raise TypeError, snd (update_gps (poll tpv_iso_time 5) init)).
Proof.
  apply (X11_non_numeric_time_raises (poll tpv_iso_time 5) init 6);
    reflexivity.
Defined.

(** X12.  Polls that cache no fix do not change what
    [get_corrected_timestamp] answers: it keeps computing from the last
    fix, however many sentences of other kinds have been processed
    since. *)
Theorem X12_corrected_time_uses_last_fix (tks : list tick) (g : GPS) (now : Q) :
  forallb (fun tk => negb (caches_fix tk)) tks = true ->
  fst (get_corrected_timestamp now (feed tks g))
  = fst (get_corrected_timestamp now g).
Proof.
  intros H. destruct (no_fix_yet tks g H) as [Ht Hl].
  destruct (get_corrected_timestamp_pure now (timestamp g) (lastGpsReading g))
    as [c Hc].
  rewrite (Hc (feed tks g) Ht Hl), (Hc g eq_refl eq_refl). reflexivity.
Qed.

Lemma X12_witness :
  fst (get_corrected_timestamp 9
         (feed [poll sky_hdop 6; poll tpv_no_fix 7; poll tpv_no_time 8]
            (feed [poll tpv_fix 5] init)))
  = fst (get_corrected_timestamp 9 (feed [poll tpv_fix 5] init)).
Proof.
  apply (X12_corrected_time_uses_last_fix
           [poll sky_hdop 6; poll tpv_no_fix 7; poll tpv_no_time 8]
           (feed [poll tpv_fix 5] init) 9).
  reflexivity.
Defined.

(** X17.  After any sequence of polls, [timestamp] and
    [lastGpsReading] are the "time" and the arrival time of the most
    recent poll that cached a fix, whatever was polled around it; with
    no such poll both are what they were. *)
Theorem X17_gps_time_is_that_of_latest_fix (tks : list tick) (g : GPS) :
  timestamp (feed tks g) = latest_time (timestamp g) tks /\
  lastGpsReading (feed tks g) = latest_arrival (lastGpsReading g) tks.
Proof.
  revert g. induction tks as [|tk tks IH]; intros g; [now split|].
  rewrite feed_cons. destruct (IH (snd (update_gps tk g))) as [-> ->].
  unfold latest_time, latest_arrival. simpl.
  destruct (caches_fix tk) eqn:H.
  - destruct (fix_cached tk g H) as [-> ->]. now split.
  - destruct (timestamp_kept tk g H) as [-> ->]. now split.
Qed.

(* ================================================================= *)
(** ** Further properties: the updater thread *)

Lemma running_after_feed (tks : list tick) (g : GPS) :
  running (feed tks g) = running g /\ stopped (feed tks g) = stopped g.
Proof.
  revert g. induction tks as [|tk tks IH]; intros g; [now split|].
  rewrite feed_cons. destruct (IH (snd (update_gps tk g))) as [-> ->].
  apply flags_kept.
Qed.

Lemma while_running_poll (Delay : delay_value) (has_cache : bool)
    (tk : tick) (clock : list Q) (evs : list event) (g g' : GPS)
    (n : nat) (rest : list Q) :
  running g = true ->
  (if has_cache then update_gps tk else update_gps_before_cache tk) g
  = (Normal tt, g') ->
  delay Delay clock = Returned n rest ->
  while_running Delay has_cache (Poll tk clock :: evs) g
  = while_running Delay has_cache evs g'.
Proof. intros Hrun Hp Hd. simpl. now rewrite Hrun, Hp, Hd. Qed.

Lemma delay_returns_inv (Delay : delay_value) (clock : list Q) :
  delay_returns Delay clock = true ->
  exists n rest, delay Delay clock = Returned n rest.
Proof.
  unfold delay_returns. destruct (delay Delay clock); try discriminate. eauto.
Qed.

Lemma while_running_polls (Delay : delay_value) (l : list (tick * list Q))
    (rest : list event) (g : GPS) :
  running g = true ->
  forallb (fun p => delay_returns Delay (snd p)) l = true ->
  while_running Delay true (polls l ++ rest) g
  = while_running Delay true rest (feed (map fst l) g).
Proof.
  revert g. induction l as [|[tk clock] l IH]; intros g Hrun Hd;
    [reflexivity|].
  cbn [forallb snd] in Hd. apply andb_true_iff in Hd as [Hc Hd].
  apply delay_returns_inv in Hc as (n & r & Hc).
  destruct (thread_poll true tk g) as (g' & Hp & Hk & _).
  change (polls ((tk, clock) :: l) ++ rest)%list
    with (Poll tk clock :: (polls l ++ rest)%list).
  change (map fst ((tk, clock) :: l)) with (tk :: map fst l).
  rewrite (while_running_poll Delay true tk clock _ g g' n r Hrun Hp Hc),
    feed_cons.
  replace (snd (update_gps tk g)) with g' by (now rewrite Hp).
  apply IH; [now rewrite Hk|exact Hd].
Qed.

(** X13.  Once [__init__] has assigned the cache, and as long as no
    stop is requested and every delay returns, the updater thread
    processes every poll, in order, with [update_gps]: it is still in
    its loop, [running] is set and [stopped] is clear (whatever the two
    flags were when the thread began), and the object is what feeding
    the polls one by one to the object with its empty cache gives. *)
Theorem X13_updater_processes_every_poll (Delay : delay_value)
    (l : list (tick * list Q)) (g : GPS) :
  forallb (fun p => delay_returns Delay (snd p)) l = true ->
  let g' := feed (map fst l) (set_gps_cache [] (entered g)) in
  _updater Delay (CacheAssigned :: polls l) g = (Looping, g') /\
  running g' = true /\ stopped g' = false.
Proof.
  intros Hd g'.
  destruct (running_after_feed (map fst l) (set_gps_cache [] (entered g)))
    as [Hr Hs].
  split; [|split; [unfold g'; rewrite Hr|unfold g'; rewrite Hs]; reflexivity].
  unfold _updater. fold (entered g).
  change (while_running Delay false (CacheAssigned :: polls l) (entered g))
    with (while_running Delay true (polls l) (set_gps_cache [] (entered g))).
  rewrite <- (app_nil_r (polls l)), while_running_polls
    by (reflexivity || exact Hd).
  simpl. fold g'. unfold g' at 1. now rewrite Hr.
Qed.

Lemma X13_witness :
  let l := [(poll sky_hdop 1, [1 # 1; 11 # 10; 16 # 10]);
            (poll tpv_fix 2, [2 # 1; 21 # 10; 27 # 10])] in
  let g' := feed (map fst l) (set_gps_cache [] (entered init)) in
  _updater (Seconds (1 # 2)) (CacheAssigned :: polls l) init = (Looping, g') /\
  running g' = true /\ stopped g' = false.
Proof.
  apply (X13_updater_processes_every_poll (Seconds (1 # 2))
           [(poll sky_hdop 1, [1 # 1; 11 # 10; 16 # 10]);
            (poll tpv_fix 2, [2 # 1; 21 # 10; 27 # 10])] init).
  reflexivity.
Defined.

Lemma while_running_stopped (Delay : delay_value) (has_cache : bool)
    (evs : list event) (g : GPS) :
  running g = false ->
  while_running Delay has_cache evs g
  = (Finished, set_stopped true (emit Warn_stopped g)).
Proof. intros H. destruct evs; simpl; rewrite H; reflexivity. Qed.

Lemma while_running_then_stop (Delay : delay_value) (before later : list event) :
  forall (has_cache : bool) (g : GPS),
    fst (while_running Delay has_cache before g) = Looping ->
    while_running Delay has_cache (before ++ Stop :: later) g
    = (Finished,
       set_stopped true
         (emit Warn_stopped
            (set_running false
               (snd (while_running Delay has_cache before g))))).
Proof.
  induction before as [|[tk clock| |] before IH]; intros has_cache g; simpl;
    destruct (running g) eqn:Hrun; try discriminate.
  - intros _. now apply while_running_stopped.
  - destruct (thread_poll has_cache tk g) as (g' & -> & _).
    destruct (delay Delay clock); try discriminate. apply IH.
  - rewrite while_running_stopped by reflexivity. discriminate.
  - apply IH.
Qed.

(** X14.  A stop request ends the thread at its next test of
    [running]: if the thread is in its loop after the events that come
    before the request, then with the request it has processed exactly
    those events, none that come later, and it leaves with [running]
    clear, [stopped] set (which is what [stop()] waits for) and its
    last warning logged. *)
Theorem X14_stop_is_acknowledged (Delay : delay_value)
    (before later : list event) (g : GPS) :
  fst (_updater Delay before g) = Looping ->
  _updater Delay (before ++ Stop :: later) g
  = (Finished,
     set_stopped true
       (emit Warn_stopped
          (set_running false (snd (_updater Delay before g))))).
Proof. unfold _updater. apply while_running_then_stop. Qed.

Lemma X14_witness :
  let before := [Poll (poll tpv_fix 1) [1 # 1; 11 # 10; 16 # 10];
                 CacheAssigned;
                 Poll (poll sky_hdop 2) [2 # 1; 21 # 10; 27 # 10]] in
  let later := [Poll (poll tpv_fix2 3) [3 # 1; 36 # 10]] in
  _updater (Seconds (1 # 2)) (before ++ Stop :: later) init
  = (Finished,
     set_stopped true
       (emit Warn_stopped
          (set_running false
             (snd (_updater (Seconds (1 # 2)) before init))))).
Proof.
  apply (X14_stop_is_acknowledged (Seconds (1 # 2))
           [Poll (poll tpv_fix 1) [1 # 1; 11 # 10; 16 # 10];
            CacheAssigned;
            Poll (poll sky_hdop 2) [2 # 1; 21 # 10; 27 # 10]]
           [Poll (poll tpv_fix2 3) [3 # 1; 36 # 10]] init).
  reflexivity.
Defined.

Lemma while_running_before_cache (Delay : delay_value)
    (l : list (tick * list Q)) :
  forall g,
    running g = true ->
    forallb (fun p => delay_returns Delay (snd p)) l = true ->
    exists g',
      while_running Delay false (polls l ++ [CacheAssigned]) g = (Looping, g')
      /\ gps_cache g' = [] /\ get_gps g' = get_gps g
      /\ timestamp g' = timestamp g
      /\ lastGpsReading g' = lastGpsReading g.
Proof.
  induction l as [|[tk clock] l IH]; intros g Hrun Hd.
  - simpl. rewrite Hrun. simpl. rewrite ?Hrun. eexists. repeat split.
  - cbn [forallb snd] in Hd. apply andb_true_iff in Hd as [Hc Hd].
    apply delay_returns_inv in Hc as (n & r & Hc).
    destruct (before_cache_kept tk g) as [lg Hk].
    destruct (thread_poll false tk g) as (g1 & Hp & Hr1 & _).
    rewrite Hp in Hk. cbn [snd] in Hk.
    change (polls ((tk, clock) :: l) ++ [CacheAssigned])%list
      with (Poll tk clock :: (polls l ++ [CacheAssigned])%list).
    rewrite (while_running_poll Delay false tk clock _ g g1 n r Hrun Hp Hc).
    destruct (IH g1) as (g' & Hw & Hcache & Hpos & Hts & Hl);
      [now rewrite Hr1|exact Hd|].
    exists g'. rewrite Hw. repeat split; try assumption.
    + rewrite Hpos, Hk. reflexivity.
    + rewrite Hts, Hk. reflexivity.
    + rewrite Hl, Hk. reflexivity.
Qed.

(** X18.  Sentences polled before [__init__] has assigned [gps_cache]
    are lost: when the assignment comes, the cache is empty and lat,
    lon, alt, hdop, timestamp and lastGpsReading are what they were when
    the thread began, whatever was polled. *)
Theorem X18_polls_before_the_cache_are_lost (Delay : delay_value)
    (l : list (tick * list Q)) (g : GPS) :
  forallb (fun p => delay_returns Delay (snd p)) l = true ->
  exists g',
    _updater Delay (polls l ++ [CacheAssigned]) g = (Looping, g') /\
    gps_cache g' = [] /\ get_gps g' = get_gps g /\
    timestamp g' = timestamp g /\ lastGpsReading g' = lastGpsReading g.
Proof.
  intros Hd. unfold _updater.
  destruct (while_running_before_cache Delay l
              (set_stopped false (set_running true g)) eq_refl Hd)
    as (g' & Hw & Hc & Hp & Ht & Hl).
  exists g'. repeat split; assumption.
Qed.

Lemma X18_witness :
  exists g',
    _updater (Seconds (1 # 2))
      (polls [(poll tpv_fix 1, [1 # 1; 11 # 10; 16 # 10]);
              (poll sky_hdop 2, [2 # 1; 21 # 10; 27 # 10])]
       ++ [CacheAssigned]) init = (Looping, g') /\
    gps_cache g' = [] /\ get_gps g' = get_gps init /\
    timestamp g' = timestamp init /\
    lastGpsReading g' = lastGpsReading init.
Proof.
  apply (X18_polls_before_the_cache_are_lost (Seconds (1 # 2))
           [(poll tpv_fix 1, [1 # 1; 11 # 10; 16 # 10]);
            (poll sky_hdop 2, [2 # 1; 21 # 10; 27 # 10])] init).
  reflexivity.
Defined.

(* ================================================================= *)
(** ** Further properties: [GPS.delay] *)

Lemma wait_returns (start Delay : Q) (clock : list Q) (n : nat) (rest : list Q) :
  Clock.wait start Delay clock = Some (n, rest) ->
  exists t,
    nth_error clock n = Some t /\ (Delay <= t - start)%Q /\
    rest = skipn (S n) clock /\
    forall i u, (i < n)%nat -> nth_error clock i = Some u ->
                (u - start < Delay)%Q.
Proof.
  revert n rest. induction clock as [|t clock IH]; intros n rest; simpl;
    [discriminate|].
  destruct (Qle_bool Delay (t - start)) eqn:E.
  - intros H. injection H as <- <-. exists t.
    apply Qle_bool_iff in E. repeat split; auto. intros i u Hi. lia.
  - destruct (Clock.wait start Delay clock) as [[m r]|]; [|discriminate].
    intros H. injection H as <- <-.
    destruct (IH m r eq_refl) as (t' & Hn & Hd & Hr & Hbefore).
    exists t'. repeat split; auto.
    intros [|i] u Hi; simpl.
    + intros Hu. injection Hu as <-. apply Qnot_le_lt. intros Hle.
      apply Qle_bool_iff in Hle. congruence.
    + apply Hbefore. lia.
Qed.

(** X15.  When [delay] returns, the reading it stopped at is at least
    [Delay] seconds after the first one, and every reading before it
    was less than [Delay] after: the call lasts at least the delay and
    ends at the first check that finds it over. *)
Theorem X15_delay_waits_until_elapsed (Delay start : Q) (clock : list Q)
    (n : nat) (rest : list Q) :
  Clock.delay Delay (start :: clock) = Some (n, rest) ->
  exists t,
    nth_error clock n = Some t /\ (Delay <= t - start)%Q /\
    rest = skipn (S n) clock /\
    forall i u, (i < n)%nat -> nth_error clock i = Some u ->
                (u - start < Delay)%Q.
Proof. apply wait_returns. Qed.

Lemma X15_witness :
  exists t,
    nth_error [10 # 1; 101 # 10; 103 # 10; 106 # 10; 107 # 10] 3 = Some t /\
    ((1 # 2) <= t - 10)%Q /\
    [107 # 10] = skipn 4 [10 # 1; 101 # 10; 103 # 10; 106 # 10; 107 # 10] /\
    forall i u, (i < 3)%nat ->
      nth_error [10 # 1; 101 # 10; 103 # 10; 106 # 10; 107 # 10] i = Some u ->
      (u - 10 < 1 # 2)%Q.
Proof.
  apply (X15_delay_waits_until_elapsed (1 # 2) 10
           [10 # 1; 101 # 10; 103 # 10; 106 # 10; 107 # 10] 3 [107 # 10]).
  reflexivity.
Defined.

Lemma wait_terminates (start Delay : Q) (n : nat) :
  forall (t0 : Q) (clock : list Q),
    (Delay <= t0 - start + inject_Z (Z.of_nat n) * (1 # 10))%Q ->
    Clock.spaced t0 clock = true ->
    (n <= length clock)%nat ->
    exists k rest,
      (k <= n)%nat /\ Clock.wait start Delay (t0 :: clock) = Some (k, rest).
Proof.
  induction n as [|n IH]; intros t0 clock Hd Hsp Hlen; simpl.
  - exists O, clock. split; [lia|].
    replace (Qle_bool Delay (t0 - start)) with true; [reflexivity|].
    symmetry. apply Qle_bool_iff.
    change (inject_Z (Z.of_nat 0)) with 0%Q in Hd. lra.
  - destruct (Qle_bool Delay (t0 - start)) eqn:E.
    + exists O, clock. split; [lia|reflexivity].
    + destruct clock as [|t1 clock]; [simpl in Hlen; lia|].
      simpl in Hsp. apply andb_true_iff in Hsp as [Hstep Hsp].
      apply Qle_bool_iff in Hstep.
      destruct (IH t1 clock) as (k & rest & Hk & Hw).
      * rewrite Nat2Z.inj_succ in Hd. unfold Z.succ in Hd.
        rewrite inject_Z_plus in Hd.
        change (inject_Z 1) with 1%Q in Hd. lra.
      * exact Hsp.
      * simpl in Hlen. lia.
      * exists (S k), rest. split; [lia|].
        rewrite Hw. reflexivity.
Qed.

(** X16.  [delay] returns, and soon: on a clock that is not set back
    and advances by the 0.1 s of each sleep, a delay of at most [n]
    tenths of a second is over after at most [n] sleeps.  A delay of
    zero or less returns without sleeping. *)
Theorem X16_delay_returns_within_bound (Delay start t0 : Q) (clock : list Q) (n : nat) :
  (start <= t0)%Q ->
  Clock.spaced t0 clock = true ->
  (Delay <= inject_Z (Z.of_nat n) * (1 # 10))%Q ->
  (n <= length clock)%nat ->
  exists k rest,
    (k <= n)%nat /\ Clock.delay Delay (start :: t0 :: clock) = Some (k, rest).
Proof.
  intros Hstart Hsp Hd Hlen. apply wait_terminates; try assumption. lra.
Qed.

Lemma X16_witness :
  exists k rest,
    (k <= 5)%nat /\
    Clock.delay (1 # 2)
      [10 # 1; 10 # 1; 101 # 10; 103 # 10; 106 # 10; 107 # 10; 108 # 10]
    = Some (k, rest).
Proof.
  apply (X16_delay_returns_within_bound (1 # 2) 10 10
           [101 # 10; 103 # 10; 106 # 10; 107 # 10; 108 # 10] 5).
  - discriminate.
  - reflexivity.
  - discriminate.
  - simpl. lia.
Defined.

Lemma delay_loop_never (start : Q) (Delay : delay_value) (clock : list Q) :
  Delay = Infinity false \/ Delay = NaN ->
  delay_loop start Delay clock = StillWaiting.
Proof.
  intros H. induction clock as [|t clock IH]; [reflexivity|].
  simpl. destruct H as [-> | ->]; simpl; rewrite IH; auto.
Qed.

Lemma delay_loop_seconds (start q : Q) (clock : list Q) :
  delay_loop start (Seconds q) clock
  = match Clock.wait start q clock with
    | Some (n, rest) => Returned n rest
    | None => StillWaiting
    end.
Proof.
  induction clock as [|t clock IH]; [reflexivity|].
  simpl. destruct (Qle_bool q (t - start)); [reflexivity|].
  rewrite IH. destruct (Clock.wait start q clock) as [[n rest]|]; reflexivity.
Qed.

(** X19.  What [threadDelay] does to [delay]: a value that is not a
    number makes the first comparison raise [TypeError]; an infinite
    or NaN delay is never over, whatever the clock reads; minus
    infinity is over at the first comparison; and for a finite number
    the call behaves as [Clock.delay] describes. *)
Theorem X19_delay_by_kind_of_value (start t q : Q) (clock : list Q) :
  delay NotANumber (start :: t :: clock) = Raised TypeError /\
  delay (Infinity false) clock = StillWaiting /\
  delay NaN clock = StillWaiting /\
  delay (Infinity true) (start :: t :: clock) = Returned O clock /\
  delay (Seconds q) clock
  = match Clock.delay q clock with
    | Some (n, rest) => Returned n rest
    | None => StillWaiting
    end.
Proof.
  repeat split.
  - destruct clock as [|s clock]; [reflexivity|].
    apply delay_loop_never. now left.
  - destruct clock as [|s clock]; [reflexivity|].
    apply delay_loop_never. now right.
  - destruct clock as [|s clock]; [reflexivity|]. apply delay_loop_seconds.
Qed.
